(** * MI stack commands (gdb/mi/mi-cmd-stack.c)

    A shallow embedding of the MI commands [-stack-list-frames],
    [-stack-list-arguments], [-stack-list-locals], [-stack-list-variables],
    [-stack-info-depth] and [-enable-frame-filters], and of the two helpers
    [list_args_or_locals] and [list_arg_or_local] they share.

    A command is a computation that calls into the rest of the debugger (the
    structured output [ui_out], the frame filters, the value reader) and
    either returns or throws.  Its model returns the ordered trace of those
    calls together with the outcome. *)

From Stdlib Require Import ZArith List String Ascii Bool Lia.
Import ListNotations.

Local Open Scope Z_scope.

(** ** Data *)

(** [enum what_to_list { locals, arguments, all }]. *)
Inductive what_to_list := locals | arguments | all.

(** [enum print_values] (mi-cmds.h), the three values the file switches on. *)
Inductive print_values :=
  PRINT_NO_VALUES | PRINT_ALL_VALUES | PRINT_SIMPLE_VALUES.

(** Modelled from the spec: [enum py_bt_status] is declared in
    python/python.h and not in mi-cmd-stack.c, which names [PY_BT_ERROR] and
    [PY_BT_NO_FILTERS]; the third outcome is the specification's
    "Completed". *)
Inductive py_bt_status := PY_BT_ERROR | PY_BT_COMPLETED | PY_BT_NO_FILTERS.

(** The [PRINT_*] bits or-ed into the [flags] argument of
    [apply_frame_filter]; a flag word is the list of the bits set in it. *)
Inductive frame_filter_flag :=
  PRINT_LEVEL | PRINT_FRAME_INFO | PRINT_ARGS | PRINT_LOCALS.

(** The [print_what] argument of [print_frame_info]. *)
Inductive print_what := LOC_AND_ADDRESS.

(** [enum address_class]: the fifteen classes the switch in
    [list_args_or_locals] names, and any other class, which reaches the
    switch's [default] label, by its number. *)
Inductive address_class :=
| LOC_UNDEF | LOC_CONST | LOC_TYPEDEF | LOC_LABEL | LOC_BLOCK
| LOC_CONST_BYTES | LOC_UNRESOLVED | LOC_OPTIMIZED_OUT
| LOC_ARG | LOC_REF_ARG | LOC_REGPARM_ADDR | LOC_LOCAL | LOC_STATIC
| LOC_REGISTER | LOC_COMPUTED
| LOC_OTHER (n : Z).

(** [TYPE_CODE]: the three aggregate codes the file tests for, and any other
    code by its number. *)
Inductive type_code :=
| TYPE_CODE_ARRAY | TYPE_CODE_STRUCT | TYPE_CODE_UNION
| TYPE_CODE_OTHER (n : Z).

Record type := { TYPE_CODE : type_code; TYPE_NAME : string }.

Record symbol := {
  SYMBOL_PRINT_NAME : string;
  SYMBOL_LINKAGE_NAME : string;
  SYMBOL_CLASS : address_class;
  SYMBOL_IS_ARGUMENT : bool;
  SYMBOL_TYPE : type;
  SYMBOL_LANGUAGE : Z
}.

(** A [struct block *] is the chain of blocks that starts there and follows
    [BLOCK_SUPERBLOCK]; the null pointer is the empty chain. *)
Record block := {
  BLOCK_SYMBOLS : list symbol;     (* in the order of ALL_BLOCK_SYMBOLS *)
  BLOCK_FUNCTION : bool            (* BLOCK_FUNCTION (block) != NULL    *)
}.

(** A [struct frame_info *] is the chain of frames that starts there and
    follows [get_prev_frame]; the null pointer is the empty chain.
    [get_frame_block] is the block chain of [get_frame_block (fi, 0)]. *)
Record frame_info := {
  frame_id : Z;
  get_frame_block : list block
}.

Definition get_prev_frame (fi : list frame_info) : list frame_info := tl fi.

(** [struct value] is opaque here: a value is a handle given back to the
    printer. *)
Definition value := Z.

(** The entry kinds a [struct frame_arg] can carry.  The file names the
    first two; [list_arg_or_local] asserts that it meets no other. *)
Inductive entry_values_kind :=
| print_entry_values_no
| print_entry_values_only
| print_entry_values_compact.

(** [struct frame_arg]. *)
Record frame_arg := {
  sym : symbol;
  val : option value;
  error : option string;
  entry_kind : entry_values_kind
}.

(** [struct mi_opt]. *)
Record mi_opt := { opt_name : string; opt_index : Z; opt_arg_p : Z }.

(** ** Outcomes and traces *)

Inductive gdb_exception :=
| gdb_error (msg : string)            (* error (_("...")) *)
| internal_error (assertion : string) (* a failed gdb_assert *)
| argv_overrun (index : Z).           (* argv[index] read with index >= argc *)

Inductive outcome (A : Type) :=
| Returns (a : A)
| Throws (e : gdb_exception).

Arguments Returns {A} a.
Arguments Throws {A} e.

(** The calls a command makes to the rest of the debugger, in order.  What
    a callee writes to the [ui_out] in its turn ([print_frame_info], the
    frame filters) is part of its call. *)
Inductive event :=
| ui_out_list_begin (name : string)
| ui_out_list_end
| ui_out_tuple_begin (name : option string)
| ui_out_tuple_end
| ui_out_field_int (name : string) (v : Z)
| ui_out_field_stream (name : string) (contents : string)
| print_frame_info (fi : frame_info) (print_level : Z) (what : print_what)
    (print_args : Z)
| apply_frame_filter_call (frame : list frame_info)
    (flags : list frame_filter_flag) (values : print_values)
    (frame_low frame_high : Z)
| read_frame_arg_call (s : symbol) (fi : frame_info)
| inbuilt_backtrace.
(** [inbuilt_backtrace] is no call: it marks that control entered the block
    under "Run the inbuilt backtrace if there are no filters registered, or
    if --no-frame-filters has been specified from the command". *)

Definition M (A : Type) : Type := (list event * outcome A)%type.

Definition ret {A} (a : A) : M A := ([], Returns a).

Definition bind {A B} (c : M A) (k : A -> M B) : M B :=
  match c with
  | (t, Returns a) => let (t', r) := k a in (t ++ t', r)
  | (t, Throws e) => (t, Throws e)
  end.

Definition throw {A} (e : gdb_exception) : M A := ([], Throws e).

Definition emit (e : event) : M unit := ([e], Returns tt).

Declare Scope gdb_scope.
Delimit Scope gdb_scope with gdb.
Notation "x <- c ;; k" := (bind c (fun x => k))
  (at level 61, c at next level, right associativity) : gdb_scope.
Notation "c ;; k" := (bind c (fun _ => k))
  (at level 61, right associativity) : gdb_scope.
Local Open Scope gdb_scope.

Definition trace {A} (c : M A) : list event := fst c.
Definition result {A} (c : M A) : outcome A := snd c.

(** [gdb_assert (c)]. *)
Definition gdb_assert (c : bool) (text : string) : M unit :=
  if c then ret tt else throw (internal_error text).

(** [make_cleanup_ui_out_list_begin_end] with the matching [do_cleanups]
    around [body]: the list is closed when [body] returns and also when it
    throws, since a throw runs the pending cleanups. *)
Definition ui_out_list (name : string) {A} (body : M A) : M A :=
  (ui_out_list_begin name :: trace body ++ [ui_out_list_end], result body).

(** [make_cleanup_ui_out_tuple_begin_end] likewise. *)
Definition ui_out_tuple (name : option string) {A} (body : M A) : M A :=
  (ui_out_tuple_begin name :: trace body ++ [ui_out_tuple_end], result body).

(** C truth of an [int]. *)
Definition truth (z : Z) : bool := negb (z =? 0).

Definition is_some {A} (o : option A) : bool :=
  match o with Some _ => true | None => false end.

Definition what_eqb (a b : what_to_list) : bool :=
  match a, b with
  | locals, locals | arguments, arguments | all, all => true
  | _, _ => false
  end.

Definition values_eqb (a b : print_values) : bool :=
  match a, b with
  | PRINT_NO_VALUES, PRINT_NO_VALUES
  | PRINT_ALL_VALUES, PRINT_ALL_VALUES
  | PRINT_SIMPLE_VALUES, PRINT_SIMPLE_VALUES => true
  | _, _ => false
  end.

Definition kind_eqb (a b : entry_values_kind) : bool :=
  match a, b with
  | print_entry_values_no, print_entry_values_no
  | print_entry_values_only, print_entry_values_only
  | print_entry_values_compact, print_entry_values_compact => true
  | _, _ => false
  end.

Definition type_code_eqb (a b : type_code) : bool :=
  match a, b with
  | TYPE_CODE_ARRAY, TYPE_CODE_ARRAY
  | TYPE_CODE_STRUCT, TYPE_CODE_STRUCT
  | TYPE_CODE_UNION, TYPE_CODE_UNION => true
  | TYPE_CODE_OTHER n, TYPE_CODE_OTHER m => n =? m
  | _, _ => false
  end.

Definition status_eqb (a b : py_bt_status) : bool :=
  match a, b with
  | PY_BT_ERROR, PY_BT_ERROR
  | PY_BT_COMPLETED, PY_BT_COMPLETED
  | PY_BT_NO_FILTERS, PY_BT_NO_FILTERS => true
  | _, _ => false
  end.

(** ** The collaborators

    Functions the file calls and does not define.  A collaborator that can
    throw where the file catches it returns the exception's message. *)
Record collaborators := {
  (* mi_getopt (prefix, argc, argv, opts, &oind, &oarg): the int returned
     and the new oind, or the error thrown *)
  mi_getopt : string -> list string -> list mi_opt -> Z -> outcome (Z * Z);
  atoi : string -> Z;
  mi_parse_print_values : string -> outcome print_values;
  apply_frame_filter :
    list frame_info -> list frame_filter_flag -> print_values -> Z -> Z ->
    py_bt_status;
  lookup_symbol : string -> list block -> option symbol;
  (* the frame_arg and the entry frame_arg that read_frame_arg fills in *)
  read_frame_arg : symbol -> frame_info -> frame_arg * frame_arg;
  check_typedef : type -> type;
  type_print : type -> string;
  (* what common_val_print wrote to the stream before it returned or threw,
     and the message of the exception if it threw *)
  common_val_print : value -> Z -> string * option string
}.

Section Commands.

Context (G : collaborators).

(** ** [parse_no_frames_option] *)
Definition parse_no_frames_option (arg : option string) : Z :=
  match arg with
  | Some a => if String.eqb a "--no-frame-filters" then 1 else 0
  | None => 0
  end.

(** ** [mi_cmd_enable_frame_filters]: the new value of the static
    [frame_filters]. *)
Definition mi_cmd_enable_frame_filters (argv : list string) : M Z :=
  if negb (Z.of_nat (List.length argv) =? 0)
  then throw (gdb_error "-enable-frame-filters: no arguments allowed")
  else ret 1.

(** ** [list_arg_or_local] *)

(** The text [fprintf_filtered (stb, "<error reading variable: %s>", m)]
    appends to the stream. *)
Definition error_reading_variable (message : string) : string :=
  String.append "<error reading variable: " (String.append message ">").

(** The contents of the stream [stb] when the "value" field is written: the
    stream is empty after the previous [ui_out_field_stream]; an [error]
    becomes the exception message without anything printed, otherwise the
    value is printed under [TRY_CATCH]. *)
Definition value_text (arg : frame_arg) : string :=
  match error arg with
  | Some message => error_reading_variable message
  | None =>
      match val arg with
      | Some v =>
          let (printed, except) :=
            common_val_print G v (SYMBOL_LANGUAGE (sym arg)) in
          match except with
          | Some message =>
              String.append printed (error_reading_variable message)
          | None => printed
          end
      | None => EmptyString
      end
  end.

(** The fields of one record, between the tuple's begin and end. *)
Definition list_arg_or_local_fields (arg : frame_arg) (what : what_to_list)
    (values : print_values) : M unit :=
  emit (ui_out_field_stream "name"
          (String.append (SYMBOL_PRINT_NAME (sym arg))
             (if kind_eqb (entry_kind arg) print_entry_values_only
              then "@entry" else ""))) ;;
  (if what_eqb what all && SYMBOL_IS_ARGUMENT (sym arg)
   then emit (ui_out_field_int "arg" 1) else ret tt) ;;
  (if values_eqb values PRINT_SIMPLE_VALUES
   then emit (ui_out_field_stream "type" (type_print G (SYMBOL_TYPE (sym arg))))
   else ret tt) ;;
  (if is_some (val arg) || is_some (error arg)
   then emit (ui_out_field_stream "value" (value_text arg))
   else ret tt).

(** The conditions of the three [gdb_assert]s. *)
Definition assert_val_xor_error (arg : frame_arg) : bool :=
  negb (is_some (val arg)) || negb (is_some (error arg)).

Definition assert_values (values : print_values) (arg : frame_arg) : bool :=
  (values_eqb values PRINT_NO_VALUES && negb (is_some (val arg))
   && negb (is_some (error arg)))
  || values_eqb values PRINT_SIMPLE_VALUES
  || (values_eqb values PRINT_ALL_VALUES
      && (is_some (val arg) || is_some (error arg))).

Definition assert_entry_kind (arg : frame_arg) : bool :=
  kind_eqb (entry_kind arg) print_entry_values_no
  || (kind_eqb (entry_kind arg) print_entry_values_only
      && (is_some (val arg) || is_some (error arg))).

Definition list_arg_or_local (arg : frame_arg) (what : what_to_list)
    (values : print_values) : M unit :=
  gdb_assert (assert_val_xor_error arg) "!arg->val || !arg->error" ;;
  gdb_assert (assert_values values arg)
    "(values == PRINT_NO_VALUES && arg->val == NULL && arg->error == NULL) || values == PRINT_SIMPLE_VALUES || (values == PRINT_ALL_VALUES && (arg->val != NULL || arg->error != NULL))" ;;
  gdb_assert (assert_entry_kind arg)
    "arg->entry_kind == print_entry_values_no || (arg->entry_kind == print_entry_values_only && (arg->val || arg->error))" ;;
  if negb (values_eqb values PRINT_NO_VALUES) || what_eqb what all
  then ui_out_tuple None (list_arg_or_local_fields arg what values)
  else list_arg_or_local_fields arg what values.

(** ** [list_args_or_locals] *)

(** The value of [print_me] after the switch on [SYMBOL_CLASS (sym)]; the
    first arm is the one under [default:] and the eight [case] labels that
    follow it. *)
Definition print_me (what : what_to_list) (s : symbol) : bool :=
  match SYMBOL_CLASS s with
  | LOC_OTHER _
  | LOC_UNDEF | LOC_CONST | LOC_TYPEDEF | LOC_LABEL | LOC_BLOCK
  | LOC_CONST_BYTES | LOC_UNRESOLVED | LOC_OPTIMIZED_OUT => false
  | LOC_ARG | LOC_REF_ARG | LOC_REGPARM_ADDR | LOC_LOCAL | LOC_STATIC
  | LOC_REGISTER | LOC_COMPUTED =>
      match what with
      | all => true
      | locals => negb (SYMBOL_IS_ARGUMENT s)
      | arguments => SYMBOL_IS_ARGUMENT s
      end
  end.

(** [memset (&arg, 0, sizeof (arg)); arg.sym = sym2;
    arg.entry_kind = print_entry_values_no;]. *)
Definition zeroed_arg (sym2 : symbol) : frame_arg :=
  {| sym := sym2; val := None; error := None;
     entry_kind := print_entry_values_no |}.

(** The test that guards [read_frame_arg] under [PRINT_SIMPLE_VALUES]. *)
Definition not_aggregate (t : type) : bool :=
  negb (type_code_eqb (TYPE_CODE t) TYPE_CODE_ARRAY)
  && negb (type_code_eqb (TYPE_CODE t) TYPE_CODE_STRUCT)
  && negb (type_code_eqb (TYPE_CODE t) TYPE_CODE_UNION).

(** The [switch (values)]: [arg] and [entryarg] after it. *)
Definition fetch_frame_args (values : print_values) (sym2 : symbol)
    (fi : frame_info) : M (frame_arg * frame_arg) :=
  match values with
  | PRINT_SIMPLE_VALUES =>
      let type := check_typedef G (SYMBOL_TYPE sym2) in
      if not_aggregate type
      then emit (read_frame_arg_call sym2 fi) ;;
           ret (read_frame_arg G sym2 fi)
      else ret (zeroed_arg sym2, zeroed_arg sym2)
  | PRINT_ALL_VALUES =>
      emit (read_frame_arg_call sym2 fi) ;;
      ret (read_frame_arg G sym2 fi)
  | PRINT_NO_VALUES => ret (zeroed_arg sym2, zeroed_arg sym2)
  end.

(** The two conditional calls of [list_arg_or_local] after the switch. *)
Definition list_frame_args (arg entryarg : frame_arg) (what : what_to_list)
    (values : print_values) : M unit :=
  (if negb (kind_eqb (entry_kind arg) print_entry_values_only)
   then list_arg_or_local arg what values else ret tt) ;;
  (if negb (kind_eqb (entry_kind entryarg) print_entry_values_no)
   then list_arg_or_local entryarg what values else ret tt).

(** [sym2]: the symbol looked up again when [sym] is an argument. *)
Definition canonical_symbol (s : symbol) (b : list block) : M symbol :=
  if SYMBOL_IS_ARGUMENT s
  then match lookup_symbol G (SYMBOL_LINKAGE_NAME s) b with
       | Some sym2 => ret sym2
       | None => throw (internal_error "sym2 != NULL")
       end
  else ret s.

(** The body of the [ALL_BLOCK_SYMBOLS] loop for one symbol of the block at
    the head of the chain [b]. *)
Definition list_symbol (what : what_to_list) (values : print_values)
    (fi : frame_info) (b : list block) (s : symbol) : M unit :=
  if print_me what s then
    sym2 <- canonical_symbol s b ;;
    args <- fetch_frame_args values sym2 fi ;;
    list_frame_args (fst args) (snd args) what values
  else ret tt.

(** [ALL_BLOCK_SYMBOLS (block, iter, sym) { ... }]. *)
Fixpoint list_block_symbols (what : what_to_list) (values : print_values)
    (fi : frame_info) (b : list block) (syms : list symbol) : M unit :=
  match syms with
  | [] => ret tt
  | s :: rest =>
      list_symbol what values fi b s ;;
      list_block_symbols what values fi b rest
  end.

(** [while (block != 0) { ...; if (BLOCK_FUNCTION (block)) break;
    else block = BLOCK_SUPERBLOCK (block); }]. *)
Fixpoint list_blocks (what : what_to_list) (values : print_values)
    (fi : frame_info) (b : list block) : M unit :=
  match b with
  | [] => ret tt
  | blk :: superblock =>
      list_block_symbols what values fi b (BLOCK_SYMBOLS blk) ;;
      if BLOCK_FUNCTION blk then ret tt
      else list_blocks what values fi superblock
  end.

Definition name_of_result (what : what_to_list) : string :=
  match what with
  | locals => "locals"
  | arguments => "args"
  | all => "variables"
  end.

Definition list_args_or_locals (what : what_to_list) (values : print_values)
    (fi : frame_info) : M unit :=
  ui_out_list (name_of_result what)
    (list_blocks what values fi (get_frame_block fi)).

(** ** Reading [argv] and calling the filters *)

(** [argv[k]]: the vector holds [argc] strings, and a read at or past [argc]
    (or below 0) is outside it. *)
Definition argv_read (argv : list string) (k : Z) : M string :=
  if (0 <=? k) && (k <? Z.of_nat (List.length argv))
  then match nth_error argv (Z.to_nat k) with
       | Some a => ret a
       | None => throw (argv_overrun k)
       end
  else throw (argv_overrun k).

Definition lift {A} (r : outcome A) : M A := ([], r).

(** [result = apply_frame_filter (frame, flags, values, current_uiout,
    low, high)]. *)
Definition call_frame_filter (frame : list frame_info)
    (flags : list frame_filter_flag) (values : print_values)
    (low high : Z) : M py_bt_status :=
  emit (apply_frame_filter_call frame flags values low high) ;;
  ret (apply_frame_filter G frame flags values low high).

(** The condition of [if (! raw_arg && frame_filters)]. *)
Definition filters_wanted (frame_filters raw_arg : Z) : bool :=
  negb (truth raw_arg) && truth frame_filters.

(** The condition of
    [if (! frame_filters || raw_arg || result == PY_BT_NO_FILTERS)]. *)
Definition inbuilt_wanted (frame_filters raw_arg : Z)
    (result : py_bt_status) : bool :=
  negb (truth frame_filters) || truth raw_arg
  || status_eqb result PY_BT_NO_FILTERS.

(** [py_frame_low]: [frame_low], incremented when it is -1. *)
Definition py_frame_low (frame_low : Z) : Z :=
  if frame_low =? -1 then frame_low + 1 else frame_low.

(** [result], initialised to [PY_BT_ERROR] and assigned under
    [if (! raw_arg && frame_filters)]. *)
Definition consult_filters (frame_filters raw_arg : Z)
    (frame : list frame_info) (flags : list frame_filter_flag)
    (values : print_values) (low high : Z) : M py_bt_status :=
  if filters_wanted frame_filters raw_arg
  then call_frame_filter frame flags values low high
  else ret PY_BT_ERROR.

(** ** Walking the frames *)

(** [for (i = 0, fi = get_current_frame (); fi && i < frame_low;
         i++, fi = get_prev_frame (fi));] started at [fi], [i]: the frame and
    the counter when the loop ends.  The counter never passes the depth of
    the stack, so it stays within [int]. *)
Fixpoint position_frame (fi : list frame_info) (i frame_low : Z)
    : list frame_info * Z :=
  match fi with
  | [] => ([], i)
  | _ :: prev =>
      if i <? frame_low then position_frame prev (i + 1) frame_low
      else (fi, i)
  end.

(** [for (; fi && (i <= frame_high || frame_high == -1);
         i++, fi = get_prev_frame (fi))
      { QUIT; print_frame_info (fi, 1, LOC_AND_ADDRESS, 0); }].
    [QUIT] polls for an interrupt; the model is of the runs that are not
    interrupted. *)
Fixpoint print_frames (fi : list frame_info) (i frame_high : Z) : M unit :=
  match fi with
  | [] => ret tt
  | f :: prev =>
      if (i <=? frame_high) || (frame_high =? -1)
      then emit (print_frame_info f 1 LOC_AND_ADDRESS 0) ;;
           print_frames prev (i + 1) frame_high
      else ret tt
  end.

(** The same loop in [mi_cmd_stack_list_args], whose body writes a "frame"
    tuple with the level and the arguments. *)
Fixpoint list_frames_args (values : print_values) (fi : list frame_info)
    (i frame_high : Z) : M unit :=
  match fi with
  | [] => ret tt
  | f :: prev =>
      if (i <=? frame_high) || (frame_high =? -1)
      then ui_out_tuple (Some "frame"%string)
             (emit (ui_out_field_int "level" i) ;;
              list_args_or_locals arguments values f) ;;
           list_frames_args values prev (i + 1) frame_high
      else ret tt
  end.

(** ** [mi_cmd_stack_list_frames] *)

Definition list_frames_opts : list mi_opt :=
  [ {| opt_name := "-no-frame-filters"; opt_index := 0; opt_arg_p := 0 |} ].

(** The [while (1)] loop over [mi_getopt]: [raw_arg] and [oind] when it
    breaks.  [mi_getopt] is not known to advance, so the loop takes fuel and
    [None] is a run that used it up. *)
Fixpoint list_frames_getopt (fuel : nat) (argv : list string)
    (oind raw_arg : Z) : option (outcome (Z * Z)) :=
  match fuel with
  | O => None
  | S fuel' =>
      match mi_getopt G "-stack-list-frames" argv list_frames_opts oind with
      | Throws e => Some (Throws e)
      | Returns (opt, oind') =>
          if opt <? 0 then Some (Returns (raw_arg, oind'))
          else list_frames_getopt fuel' argv oind'
                 (if opt =? 0 then oind' else raw_arg)
      end
  end.

(** The command from "Let's position fi on the frame at which to start the
    display" on, with [raw_arg], [frame_low] and [frame_high] set.  The
    [NO_VALUES] handed to the filters is [PRINT_NO_VALUES]. *)
Definition stack_list_frames (frame_filters : Z) (stack : list frame_info)
    (raw_arg frame_low frame_high : Z) : M unit :=
  let (fi, i) := position_frame stack 0 frame_low in
  match fi with
  | [] => throw (gdb_error "-stack-list-frames: Not enough frames in stack.")
  | _ :: _ =>
      ui_out_list "stack"
        (result <-
           consult_filters frame_filters raw_arg stack
             [PRINT_LEVEL; PRINT_FRAME_INFO] PRINT_NO_VALUES
             (py_frame_low frame_low) frame_high ;;
         if inbuilt_wanted frame_filters raw_arg result
         then emit inbuilt_backtrace ;; print_frames fi i frame_high
         else ret tt)
  end.

Definition mi_cmd_stack_list_frames (fuel : nat) (frame_filters : Z)
    (stack : list frame_info) (argv : list string) : option (M unit) :=
  let argc := Z.of_nat (List.length argv) in
  match list_frames_getopt fuel argv 0 0 with
  | None => None
  | Some (Throws e) => Some (throw e)
  | Some (Returns (raw_arg, oind)) =>
      Some
        (if negb (argc - oind =? 0) && negb (argc - oind =? 2)
         then throw (gdb_error
           "-stack-list-frames: Usage: [--no-frame-filters] [FRAME_LOW FRAME_HIGH]")
         else
           range <-
             (if argc - oind =? 2
              then low <- argv_read argv (0 + oind) ;;
                   high <- argv_read argv (1 + oind) ;;
                   ret (atoi G low, atoi G high)
              else ret (-1, -1)) ;;
           stack_list_frames frame_filters stack raw_arg
             (fst range) (snd range))
  end.

(** ** [mi_cmd_stack_info_depth] *)

Fixpoint count_frames (fi : list frame_info) (i frame_high : Z) : Z :=
  match fi with
  | [] => i
  | _ :: prev =>
      if (i <? frame_high) || (frame_high =? -1)
      then count_frames prev (i + 1) frame_high
      else i
  end.

Definition mi_cmd_stack_info_depth (stack : list frame_info)
    (argv : list string) : M unit :=
  let argc := Z.of_nat (List.length argv) in
  if 1 <? argc
  then throw (gdb_error "-stack-info-depth: Usage: [MAX_DEPTH]")
  else
    frame_high <-
      (if argc =? 1 then a <- argv_read argv 0 ;; ret (atoi G a)
       else ret (-1)) ;;
    emit (ui_out_field_int "depth" (count_frames stack 0 frame_high)).

(** ** [mi_cmd_stack_list_locals]

    [frame] is the frame [get_selected_frame (NULL)] returns and [older] the
    frames [get_prev_frame] reaches from it. *)

(** [if (argc > 0) raw_arg = parse_no_frames_option (argv[0]);]. *)
Definition raw_arg_of (argv : list string) : Z :=
  if 0 <? Z.of_nat (List.length argv)
  then parse_no_frames_option (nth_error argv 0)
  else 0.

(** The condition under which [mi_cmd_stack_list_locals] and
    [mi_cmd_stack_list_variables] throw their usage error. *)
Definition one_value_usage_error (argc raw_arg : Z) : bool :=
  (argc <? 1) || (2 <? argc) || ((argc =? 2) && negb (truth raw_arg))
  || ((argc =? 1) && truth raw_arg).

(** The command from [if (! raw_arg && frame_filters)] on. *)
Definition stack_list_locals (frame_filters : Z) (frame : frame_info)
    (older : list frame_info) (raw_arg : Z) (print_value : print_values)
    : M unit :=
  result <-
    consult_filters frame_filters raw_arg (frame :: older)
      [PRINT_LEVEL; PRINT_LOCALS] print_value 0 0 ;;
  if inbuilt_wanted frame_filters raw_arg result
  then emit inbuilt_backtrace ;; list_args_or_locals locals print_value frame
  else ret tt.

Definition mi_cmd_stack_list_locals (frame_filters : Z) (frame : frame_info)
    (older : list frame_info) (argv : list string) : M unit :=
  let argc := Z.of_nat (List.length argv) in
  let raw_arg := raw_arg_of argv in
  if one_value_usage_error argc raw_arg
  then throw (gdb_error
    "-stack-list-locals: Usage: [--no-frame-filters] PRINT_VALUES")
  else
    a <- argv_read argv raw_arg ;;
    print_value <- lift (mi_parse_print_values G a) ;;
    stack_list_locals frame_filters frame older raw_arg print_value.

(** ** [mi_cmd_stack_list_variables] *)

(** The command from [if (! raw_arg && frame_filters)] on. *)
Definition stack_list_variables (frame_filters : Z) (frame : frame_info)
    (older : list frame_info) (raw_arg : Z) (print_value : print_values)
    : M unit :=
  result <-
    consult_filters frame_filters raw_arg (frame :: older)
      [PRINT_LEVEL; PRINT_ARGS; PRINT_LOCALS] print_value 0 0 ;;
  if inbuilt_wanted frame_filters raw_arg result
  then emit inbuilt_backtrace ;; list_args_or_locals all print_value frame
  else ret tt.

Definition mi_cmd_stack_list_variables (frame_filters : Z)
    (frame : frame_info) (older : list frame_info) (argv : list string)
    : M unit :=
  let argc := Z.of_nat (List.length argv) in
  let raw_arg := raw_arg_of argv in
  if one_value_usage_error argc raw_arg
  then throw (gdb_error
    "-stack-list-variables: Usage: [--no-frame-filters] PRINT_VALUES")
  else
    a <- argv_read argv raw_arg ;;
    print_value <- lift (mi_parse_print_values G a) ;;
    stack_list_variables frame_filters frame older raw_arg print_value.

(** ** [mi_cmd_stack_list_args] *)

(** The condition under which [mi_cmd_stack_list_args] throws its usage
    error. *)
Definition list_args_usage_error (argc raw_arg : Z) : bool :=
  (argc <? 1) || ((3 <? argc) && negb (truth raw_arg))
  || ((argc =? 2) && negb (truth raw_arg)).

(** The command from "Let's position fi on the frame at which to start the
    display" on. *)
Definition stack_list_args (frame_filters : Z) (stack : list frame_info)
    (raw_arg : Z) (values : print_values) (frame_low frame_high : Z)
    : M unit :=
  let (fi, i) := position_frame stack 0 frame_low in
  match fi with
  | [] =>
      throw (gdb_error "-stack-list-arguments: Not enough frames in stack.")
  | _ :: _ =>
      ui_out_list "stack-args"
        (result <-
           consult_filters frame_filters raw_arg stack
             [PRINT_LEVEL; PRINT_ARGS] values
             (py_frame_low frame_low) frame_high ;;
         if inbuilt_wanted frame_filters raw_arg result
         then emit inbuilt_backtrace ;;
              list_frames_args values fi i frame_high
         else ret tt)
  end.

Definition mi_cmd_stack_list_args (frame_filters : Z)
    (stack : list frame_info) (argv : list string) : M unit :=
  let argc := Z.of_nat (List.length argv) in
  let raw_arg := raw_arg_of argv in
  if list_args_usage_error argc raw_arg
  then throw (gdb_error
    "-stack-list-arguments: Usage: [--no-frame-filters] PRINT_VALUES [FRAME_LOW FRAME_HIGH]")
  else
    range <-
      (if 3 <=? argc
       then low <- argv_read argv (1 + raw_arg) ;;
            high <- argv_read argv (2 + raw_arg) ;;
            ret (atoi G low, atoi G high)
       else ret (-1, -1)) ;;
    a <- argv_read argv raw_arg ;;
    values <- lift (mi_parse_print_values G a) ;;
    stack_list_args frame_filters stack raw_arg values
      (fst range) (snd range).

End Commands.

(** ** Reading a trace *)

(** The frames at depths [low] .. [high] of a stack, innermost first. *)
Definition frames_between (low high : Z) (stack : list frame_info)
    : list frame_info :=
  firstn (Z.to_nat (high - low + 1)) (skipn (Z.to_nat low) stack).

(** Frames paired with consecutive levels from [i] on. *)
Fixpoint with_levels (i : Z) (frames : list frame_info)
    : list (Z * frame_info) :=
  match frames with
  | [] => []
  | f :: prev => (i, f) :: with_levels (i + 1) prev
  end.

(** The record [print_frame_info] is asked to write for a frame. *)
Definition frame_record (f : frame_info) : event :=
  print_frame_info f 1 LOC_AND_ADDRESS 0.

(** The "frame" tuple [mi_cmd_stack_list_args] writes for a frame at a level:
    the level, then the frame's arguments. *)
Definition frame_args_record (G : collaborators) (values : print_values)
    (lf : Z * frame_info) : list event :=
  ui_out_tuple_begin (Some "frame"%string)
    :: ui_out_field_int "level" (fst lf)
    :: trace (list_args_or_locals G arguments values (snd lf))
    ++ [ui_out_tuple_end].

(** The fields of a variable's record and the record in its tuple. *)
Definition record_fields (name : string) (arg_flag : bool)
    (type_text value_text : option string) : list event :=
  [ui_out_field_stream "name" name]
  ++ (if arg_flag then [ui_out_field_int "arg" 1] else [])
  ++ match type_text with
     | Some t => [ui_out_field_stream "type" t]
     | None => []
     end
  ++ match value_text with
     | Some v => [ui_out_field_stream "value" v]
     | None => []
     end.

Definition record (name : string) (arg_flag : bool)
    (type_text value_text : option string) : list event :=
  ui_out_tuple_begin None
    :: record_fields name arg_flag type_text value_text
    ++ [ui_out_tuple_end].

(** The name a request is listed under. *)
Definition request_name (arg : frame_arg) : string :=
  String.append (SYMBOL_PRINT_NAME (sym arg))
    (if kind_eqb (entry_kind arg) print_entry_values_only
     then "@entry" else "").

(** The three assertions [list_arg_or_local] makes of a request. *)
Definition frame_arg_asserts (values : print_values) (arg : frame_arg)
    : bool :=
  assert_val_xor_error arg && assert_values values arg
  && assert_entry_kind arg.

(** What [list_arg_or_local] writes for a request that passes them: the
    name, the "arg" flag under [all], the type under [PRINT_SIMPLE_VALUES]
    and the value if the request carries a value or an error, in a tuple
    unless only names of locals or of arguments are listed. *)
Definition request_events (G : collaborators) (arg : frame_arg)
    (what : what_to_list) (values : print_values) : list event :=
  (if negb (values_eqb values PRINT_NO_VALUES) || what_eqb what all
   then record else record_fields)
    (request_name arg)
    (what_eqb what all && SYMBOL_IS_ARGUMENT (sym arg))
    (if values_eqb values PRINT_SIMPLE_VALUES
     then Some (type_print G (SYMBOL_TYPE (sym arg))) else None)
    (if is_some (val arg) || is_some (error arg)
     then Some (value_text G arg) else None).

(** What the file relies on [read_frame_arg] for: both requests are of the
    symbol read, and each one that will be listed carries a value or an
    error, which is what [list_arg_or_local] asserts of a request read
    under [PRINT_ALL_VALUES]. *)
Definition well_read (sym2 : symbol) (args : frame_arg * frame_arg) : Prop :=
  sym (fst args) = sym2 /\ sym (snd args) = sym2
  /\ kind_eqb (entry_kind (fst args)) print_entry_values_only
     || frame_arg_asserts PRINT_ALL_VALUES (fst args) = true
  /\ kind_eqb (entry_kind (snd args)) print_entry_values_no
     || frame_arg_asserts PRINT_ALL_VALUES (snd args) = true.

(** Modelled from the spec: [read_frame_arg] is defined in stack.c and not in
    mi-cmd-stack.c.  The specification has the fetch leave a variable to be
    listed once under its name, once as an entry value, or twice; it never
    leaves nothing to list, that is, it never hands back the normal request
    as [print_entry_values_only] together with the entry request as
    [print_entry_values_no]. *)
Definition leaves_a_request (arg entryarg : frame_arg) : bool :=
  negb (kind_eqb (entry_kind arg) print_entry_values_only
        && kind_eqb (entry_kind entryarg) print_entry_values_no).

(** The contents of the stream fields called [name], in order. *)
Fixpoint fields_named (name : string) (t : list event) : list string :=
  match t with
  | [] => []
  | ui_out_field_stream n contents :: t' =>
      if String.eqb n name then contents :: fields_named name t'
      else fields_named name t'
  | _ :: t' => fields_named name t'
  end.

Definition is_filter_call (e : event) : bool :=
  match e with
  | apply_frame_filter_call _ _ _ _ _ => true
  | _ => false
  end.

Definition is_read_call (e : event) : bool :=
  match e with
  | read_frame_arg_call _ _ => true
  | _ => false
  end.

(** The low bound handed to the filters by a call. *)
Definition filter_low (e : event) : option Z :=
  match e with
  | apply_frame_filter_call _ _ _ low _ => Some low
  | _ => None
  end.

(** A property of events holds of every event of a computation's trace. *)
Definition quiet (P : event -> Prop) {A} (c : M A) : Prop :=
  Forall P (trace c).

(** The classes the specification excludes from every listing. *)
Definition excluded_class (c : address_class) : bool :=
  match c with
  | LOC_UNDEF | LOC_CONST | LOC_TYPEDEF | LOC_LABEL | LOC_BLOCK
  | LOC_CONST_BYTES | LOC_UNRESOLVED | LOC_OPTIMIZED_OUT => true
  | _ => false
  end.

(** The classes the specification names as candidates. *)
Definition candidate_class (c : address_class) : bool :=
  match c with
  | LOC_ARG | LOC_REF_ARG | LOC_REGPARM_ADDR | LOC_LOCAL | LOC_STATIC
  | LOC_REGISTER | LOC_COMPUTED => true
  | _ => false
  end.

(** ** A small debuggee

    A function [f (int x, int y)] with a local [struct s buf] in an inner
    block, called from [main]; the memory of [x] cannot be read. *)
Module Sample.

Definition int_type : type :=
  {| TYPE_CODE := TYPE_CODE_OTHER 8; TYPE_NAME := "int" |}.
Definition struct_type : type :=
  {| TYPE_CODE := TYPE_CODE_STRUCT; TYPE_NAME := "struct s" |}.

Definition sym_x : symbol :=
  {| SYMBOL_PRINT_NAME := "x"; SYMBOL_LINKAGE_NAME := "x";
     SYMBOL_CLASS := LOC_ARG; SYMBOL_IS_ARGUMENT := true;
     SYMBOL_TYPE := int_type; SYMBOL_LANGUAGE := 1 |}.
Definition sym_y : symbol :=
  {| SYMBOL_PRINT_NAME := "y"; SYMBOL_LINKAGE_NAME := "y";
     SYMBOL_CLASS := LOC_COMPUTED; SYMBOL_IS_ARGUMENT := true;
     SYMBOL_TYPE := int_type; SYMBOL_LANGUAGE := 1 |}.
Definition sym_buf : symbol :=
  {| SYMBOL_PRINT_NAME := "buf"; SYMBOL_LINKAGE_NAME := "buf";
     SYMBOL_CLASS := LOC_LOCAL; SYMBOL_IS_ARGUMENT := false;
     SYMBOL_TYPE := struct_type; SYMBOL_LANGUAGE := 1 |}.
Definition sym_argc : symbol :=
  {| SYMBOL_PRINT_NAME := "argc"; SYMBOL_LINKAGE_NAME := "argc";
     SYMBOL_CLASS := LOC_REGISTER; SYMBOL_IS_ARGUMENT := true;
     SYMBOL_TYPE := int_type; SYMBOL_LANGUAGE := 1 |}.

Definition inner_block : block :=
  {| BLOCK_SYMBOLS := [sym_buf]; BLOCK_FUNCTION := false |}.
Definition f_block : block :=
  {| BLOCK_SYMBOLS := [sym_x; sym_y]; BLOCK_FUNCTION := true |}.
Definition main_block : block :=
  {| BLOCK_SYMBOLS := [sym_argc]; BLOCK_FUNCTION := true |}.
Definition file_block : block :=
  {| BLOCK_SYMBOLS := []; BLOCK_FUNCTION := false |}.

Definition frame_f : frame_info :=
  {| frame_id := 0; get_frame_block := [inner_block; f_block; file_block] |}.
Definition frame_main : frame_info :=
  {| frame_id := 1; get_frame_block := [main_block; file_block] |}.
Definition frame_start : frame_info :=
  {| frame_id := 2; get_frame_block := [] |}.

Definition stack : list frame_info := [frame_f; frame_main; frame_start].

(** The symbol of that name in the blocks from [b] outwards. *)
Fixpoint lookup (name : string) (b : list block) : option symbol :=
  match b with
  | [] => None
  | blk :: superblock =>
      match find (fun s => String.eqb (SYMBOL_LINKAGE_NAME s) name)
                 (BLOCK_SYMBOLS blk) with
      | Some s => Some s
      | None => lookup name superblock
      end
  end.

(** [x] cannot be read; [y] has its value and its entry value; any other
    symbol has its value only. *)
Definition read (s : symbol) (fi : frame_info) : frame_arg * frame_arg :=
  if String.eqb (SYMBOL_PRINT_NAME s) "x" then
    ({| sym := s; val := None;
        error := Some "Cannot access memory at address 0x0"%string;
        entry_kind := print_entry_values_no |},
     {| sym := s; val := None; error := None;
        entry_kind := print_entry_values_no |})
  else if String.eqb (SYMBOL_PRINT_NAME s) "y" then
    ({| sym := s; val := Some 7; error := None;
        entry_kind := print_entry_values_no |},
     {| sym := s; val := Some 5; error := None;
        entry_kind := print_entry_values_only |})
  else
    ({| sym := s; val := Some 1; error := None;
        entry_kind := print_entry_values_no |},
     {| sym := s; val := None; error := None;
        entry_kind := print_entry_values_no |}).

Definition digit (a : ascii) : Z := Z.of_N (N_of_ascii a) - 48.

Fixpoint digits (acc : Z) (s : string) : Z :=
  match s with
  | EmptyString => acc
  | String a rest =>
      if (0 <=? digit a) && (digit a <=? 9)
      then digits (10 * acc + digit a) rest
      else acc
  end.

Definition decimal (s : string) : Z :=
  match s with
  | String "-"%char rest => - digits 0 rest
  | _ => digits 0 s
  end.

Definition parse_values (s : string) : outcome print_values :=
  if String.eqb s "0" then Returns PRINT_NO_VALUES
  else if String.eqb s "1" then Returns PRINT_ALL_VALUES
  else if String.eqb s "2" then Returns PRINT_SIMPLE_VALUES
  else Throws (gdb_error "Unknown value for PRINT_VALUES").

(** An option parser that knows the options of the table by their names
    after a dash and stops at anything else. *)
Definition getopt (prefix : string) (argv : list string)
    (opts : list mi_opt) (oind : Z) : outcome (Z * Z) :=
  match nth_error argv (Z.to_nat oind) with
  | Some (String "-"%char name) =>
      match find (fun o => String.eqb (opt_name o) name) opts with
      | Some o => Returns (opt_index o, oind + 1)
      | None => Throws (gdb_error "Unknown option")
      end
  | _ => Returns (-1, oind)
  end.

(** A debugger with no frame filter registered. *)
Definition gdb : collaborators :=
  {| mi_getopt := getopt;
     atoi := decimal;
     mi_parse_print_values := parse_values;
     apply_frame_filter := fun _ _ _ _ _ => PY_BT_NO_FILTERS;
     lookup_symbol := lookup;
     read_frame_arg := read;
     check_typedef := fun t => t;
     type_print := TYPE_NAME;
     common_val_print := fun v _ =>
       (match v with 7 => "7" | 5 => "5" | _ => "1" end%string, None) |}.

(** The same debugger with a frame filter that handles every request. *)
Definition gdb_filtered : collaborators :=
  {| mi_getopt := getopt;
     atoi := decimal;
     mi_parse_print_values := parse_values;
     apply_frame_filter := fun _ _ _ _ _ => PY_BT_COMPLETED;
     lookup_symbol := lookup;
     read_frame_arg := read;
     check_typedef := fun t => t;
     type_print := TYPE_NAME;
     common_val_print := fun v _ =>
       (match v with 7 => "7" | 5 => "5" | _ => "1" end%string, None) |}.

End Sample.

(** ** [mi_cmd_stack_info_frame]

    [frame] is the frame [get_selected_frame (NULL)] returns. *)
Definition mi_cmd_stack_info_frame (frame : frame_info)
    (argv : list string) : M unit :=
  if 0 <? Z.of_nat (List.length argv)
  then throw (gdb_error "-stack-info-frame: No arguments allowed")
  else emit (print_frame_info frame 1 LOC_AND_ADDRESS 0).

(** ** More readings of a stack, a block chain and a trace *)

(** The frames from depth [low] (0 for a negative [low]) up to depth [high],
    or to the outermost frame when [high] is -1. *)
Definition frames_from (low high : Z) (stack : list frame_info)
    : list frame_info :=
  if high =? -1 then skipn (Z.to_nat low) stack
  else firstn (Z.to_nat (high - Z.max 0 low + 1))
         (skipn (Z.to_nat low) stack).

(** The blocks of a chain up to and including the first one that is the
    block of a function. *)
Fixpoint blocks_to_function (b : list block) : list block :=
  match b with
  | [] => []
  | blk :: superblock =>
      blk :: (if BLOCK_FUNCTION blk then []
              else blocks_to_function superblock)
  end.

(** The lists and tuples of the [ui_out] that are open after a trace, the
    innermost first; [None] when an end meets no matching begin. *)
Inductive bracket := list_bracket | tuple_bracket.

Fixpoint open_after (open : list bracket) (t : list event)
    : option (list bracket) :=
  match t with
  | [] => Some open
  | ui_out_list_begin _ :: t' => open_after (list_bracket :: open) t'
  | ui_out_tuple_begin _ :: t' => open_after (tuple_bracket :: open) t'
  | ui_out_list_end :: t' =>
      match open with
      | list_bracket :: open' => open_after open' t'
      | _ => None
      end
  | ui_out_tuple_end :: t' =>
      match open with
      | tuple_bracket :: open' => open_after open' t'
      | _ => None
      end
  | _ :: t' => open_after open t'
  end.

(** A computation leaves the lists and tuples of the [ui_out] as it found
    them. *)
Definition balanced {A} (c : M A) : Prop :=
  forall open, open_after open (trace c) = Some open.

(** Events that carry a value: a read of the frame, a "type" or a "value"
    field. *)
Definition carries_value (e : event) : bool :=
  match e with
  | read_frame_arg_call _ _ => true
  | ui_out_field_stream n _ => String.eqb n "type" || String.eqb n "value"
  | _ => false
  end.

(** The "name" field of a symbol. *)
Definition name_field (s : symbol) : event :=
  ui_out_field_stream "name" (SYMBOL_PRINT_NAME s).

(** The events that open or close a list or a tuple. *)
Definition is_bracket (e : event) : bool :=
  match e with
  | ui_out_list_begin _ | ui_out_list_end
  | ui_out_tuple_begin _ | ui_out_tuple_end => true
  | _ => false
  end.

(** The "arg" field. *)
Definition is_arg_field (e : event) : bool :=
  match e with
  | ui_out_field_int n _ => String.eqb n "arg"
  | _ => false
  end.

(** The sample debugger with a symbol lookup that finds nothing. *)
Definition gdb_without_lookup : collaborators :=
  {| mi_getopt := mi_getopt Sample.gdb;
     atoi := atoi Sample.gdb;
     mi_parse_print_values := mi_parse_print_values Sample.gdb;
     apply_frame_filter := apply_frame_filter Sample.gdb;
     lookup_symbol := fun _ _ => None;
     read_frame_arg := read_frame_arg Sample.gdb;
     check_typedef := check_typedef Sample.gdb;
     type_print := type_print Sample.gdb;
     common_val_print := common_val_print Sample.gdb |}.

(** The sample debugger with a value printer that throws after it has
    printed the first member of a struct. *)
Definition gdb_with_failing_printer : collaborators :=
  {| mi_getopt := mi_getopt Sample.gdb;
     atoi := atoi Sample.gdb;
     mi_parse_print_values := mi_parse_print_values Sample.gdb;
     apply_frame_filter := apply_frame_filter Sample.gdb;
     lookup_symbol := lookup_symbol Sample.gdb;
     read_frame_arg := read_frame_arg Sample.gdb;
     check_typedef := check_typedef Sample.gdb;
     type_print := type_print Sample.gdb;
     common_val_print := fun _ _ =>
       ("{a = 1, b = "%string,
        Some "Cannot access memory at address 0x8"%string) |}.

(** * Properties *)

Local Open Scope gdb_scope.

(** ** The monad *)

Lemma bind_ret {A B} (a : A) (k : A -> M B) : bind (ret a) k = k a.
Proof. unfold bind, ret. destruct (k a). reflexivity. Qed.

Lemma bind_throw {A B} (e : gdb_exception) (k : A -> M B) :
  bind (throw e) k = throw e.
Proof. reflexivity. Qed.

Lemma bind_emit {B} (e : event) (k : unit -> M B) :
  bind (emit e) k = (e :: trace (k tt), result (k tt)).
Proof. unfold bind, emit. destruct (k tt). reflexivity. Qed.

Lemma bind_returns {A B} (c : M A) (k : A -> M B) (a : A) :
  result c = Returns a ->
  bind c k = (trace c ++ trace (k a), result (k a)).
Proof.
  destruct c as [t r]. simpl. intros ->. destruct (k a). reflexivity.
Qed.

Lemma bind_throws {A B} (c : M A) (k : A -> M B) (e : gdb_exception) :
  result c = Throws e -> bind c k = (trace c, Throws e).
Proof. destruct c as [t r]. simpl. intros ->. reflexivity. Qed.

Lemma bind_bind {A B C} (c : M A) (f : A -> M B) (g : B -> M C) :
  bind (bind c f) g = bind c (fun a => bind (f a) g).
Proof.
  destruct c as [t [a|e]]; cbn [bind]; [|reflexivity].
  destruct (f a) as [t' [a'|e']]; cbn [bind]; [|reflexivity].
  destruct (g a') as [t'' r]. rewrite app_assoc. reflexivity.
Qed.

Lemma pair_trace_result {A} (c : M A) : c = (trace c, result c).
Proof. destruct c. reflexivity. Qed.

(** ** The frame window *)

Lemma position_frame_past (fi : list frame_info) (i frame_low : Z) :
  i + Z.of_nat (List.length fi) <= frame_low ->
  fst (position_frame fi i frame_low) = [].
Proof.
  revert i. induction fi as [|f prev IH]; intros i H; simpl in *.
  - reflexivity.
  - destruct (Z.ltb_spec i frame_low); [apply IH|]; lia.
Qed.

Lemma position_frame_here (fi : list frame_info) (i frame_low : Z) :
  frame_low <= i -> position_frame fi i frame_low = (fi, i).
Proof.
  intros H. destruct fi as [|f prev]; simpl.
  - reflexivity.
  - destruct (Z.ltb_spec i frame_low); [lia | reflexivity].
Qed.

Lemma position_frame_reach (fi : list frame_info) (i frame_low : Z) :
  i <= frame_low < i + Z.of_nat (List.length fi) ->
  position_frame fi i frame_low =
  (skipn (Z.to_nat (frame_low - i)) fi, frame_low).
Proof.
  revert i. induction fi as [|f prev IH]; intros i H.
  - simpl in H. lia.
  - cbn [position_frame]. destruct (Z.ltb_spec i frame_low) as [Hlt|Hge].
    + rewrite IH by (cbn [List.length] in H; lia).
      replace (Z.to_nat (frame_low - i))
        with (S (Z.to_nat (frame_low - (i + 1)))) by lia.
      reflexivity.
    + replace frame_low with i by lia. rewrite Z.sub_diag. reflexivity.
Qed.

Lemma skipn_nonempty {A} (n : nat) (l : list A) :
  (n < List.length l)%nat -> exists a rest, skipn n l = a :: rest.
Proof.
  revert l. induction n as [|n IH]; intros [|a l] H; simpl in *; try lia.
  - eauto.
  - apply IH. lia.
Qed.

Lemma print_frames_window (fi : list frame_info) (i frame_high : Z) :
  0 <= frame_high -> i <= frame_high + 1 ->
  print_frames fi i frame_high =
  (map frame_record (firstn (Z.to_nat (frame_high - i + 1)) fi), Returns tt).
Proof.
  intros Hh. revert i.
  induction fi as [|f prev IH]; intros i Hi; cbn [print_frames].
  - rewrite firstn_nil. reflexivity.
  - destruct (Z.eqb_spec frame_high (-1)); [lia|]. rewrite orb_false_r.
    destruct (Z.leb_spec i frame_high).
    + rewrite bind_emit, IH by lia.
      replace (Z.to_nat (frame_high - i + 1))
        with (S (Z.to_nat (frame_high - (i + 1) + 1))) by lia.
      reflexivity.
    + replace (frame_high - i + 1) with 0 by lia. reflexivity.
Qed.

Lemma list_frames_args_window (G : collaborators) (values : print_values)
    (fi : list frame_info) (i frame_high : Z) :
  0 <= frame_high -> i <= frame_high + 1 ->
  Forall (fun f => result (list_args_or_locals G arguments values f)
                   = Returns tt)
         (firstn (Z.to_nat (frame_high - i + 1)) fi) ->
  list_frames_args G values fi i frame_high =
  (flat_map (frame_args_record G values)
     (with_levels i (firstn (Z.to_nat (frame_high - i + 1)) fi)),
   Returns tt).
Proof.
  intros Hh. revert i.
  induction fi as [|f prev IH]; intros i Hi Hall; cbn [list_frames_args].
  - rewrite firstn_nil. reflexivity.
  - destruct (Z.eqb_spec frame_high (-1)); [lia|]. rewrite orb_false_r.
    destruct (Z.leb_spec i frame_high).
    + replace (Z.to_nat (frame_high - i + 1))
        with (S (Z.to_nat (frame_high - (i + 1) + 1))) in * by lia.
      cbn [firstn] in Hall. inversion Hall as [|? ? Hf Hrest]; subst.
      rewrite (bind_returns _ _ tt).
      * rewrite IH by (assumption || lia).
        cbn [firstn with_levels flat_map trace result fst snd].
        unfold frame_args_record, ui_out_tuple. cbn [fst snd trace].
        rewrite bind_emit. reflexivity.
      * unfold ui_out_tuple. cbn [result snd]. rewrite bind_emit.
        exact Hf.
    + replace (frame_high - i + 1) with 0 by lia. reflexivity.
Qed.

Lemma with_levels_levels (i : Z) (frames : list frame_info) :
  map fst (with_levels i frames) =
  map (fun k => i + Z.of_nat k) (seq 0 (List.length frames)).
Proof.
  revert i. induction frames as [|f prev IH]; intros i;
    cbn [with_levels map List.length seq].
  - reflexivity.
  - f_equal; [cbn [fst]; lia|].
    rewrite IH, <- seq_shift, map_map. apply map_ext. intros k. lia.
Qed.

Lemma with_levels_frames (i : Z) (frames : list frame_info) :
  map snd (with_levels i frames) = frames.
Proof.
  revert i. induction frames as [|f prev IH]; intros i; simpl;
    [|rewrite IH]; reflexivity.
Qed.

Lemma frames_between_length (low high : Z) (stack : list frame_info) :
  0 <= low <= high -> high < Z.of_nat (List.length stack) ->
  List.length (frames_between low high stack) = Z.to_nat (high - low + 1).
Proof.
  intros H1 H2. unfold frames_between.
  rewrite length_firstn, length_skipn. lia.
Qed.

Lemma frames_between_nth (low high : Z) (stack : list frame_info) (k : nat) :
  0 <= low -> (k < Z.to_nat (high - low + 1))%nat ->
  nth_error (frames_between low high stack) k =
  nth_error stack (Z.to_nat low + k).
Proof.
  intros H1 H2. unfold frames_between.
  rewrite nth_error_firstn.
  destruct (Nat.ltb_spec k (Z.to_nat (high - low + 1))); [|lia].
  apply nth_error_skipn.
Qed.

Lemma position_frame_within (stack : list frame_info) (frame_low : Z) :
  Z.max 0 frame_low < Z.of_nat (List.length stack) ->
  exists f prev,
    position_frame stack 0 frame_low = (f :: prev, Z.max 0 frame_low).
Proof.
  intros H. destruct (Z.le_gt_cases frame_low 0) as [Hle|Hgt].
  - rewrite position_frame_here by lia.
    destruct stack as [|f prev]; [simpl in H; lia|].
    exists f, prev. f_equal. lia.
  - rewrite position_frame_reach by lia.
    destruct (skipn_nonempty (Z.to_nat (frame_low - 0)) stack) as (f & prev & E);
      [lia|].
    exists f, prev. rewrite E. f_equal. lia.
Qed.

(** ** The dispatch between the frame filters and the inbuilt listing *)

Lemma consult_filters_eq (G : collaborators) (frame_filters raw_arg : Z)
    (frame : list frame_info) (flags : list frame_filter_flag)
    (values : print_values) (low high : Z) :
  consult_filters G frame_filters raw_arg frame flags values low high =
  ((if filters_wanted frame_filters raw_arg
    then [apply_frame_filter_call frame flags values low high] else []),
   Returns (if filters_wanted frame_filters raw_arg
            then apply_frame_filter G frame flags values low high
            else PY_BT_ERROR)).
Proof.
  unfold consult_filters, call_frame_filter.
  destruct (filters_wanted frame_filters raw_arg); reflexivity.
Qed.


(** The trace of a dispatch: the call to the filters if made, then the
    inbuilt listing behind its mark if made. *)
Lemma dispatch_trace (G : collaborators) (frame_filters raw_arg : Z)
    (frame : list frame_info) (flags : list frame_filter_flag)
    (values : print_values) (low high : Z) (inbuilt : M unit) :
  let status :=
    if filters_wanted frame_filters raw_arg
    then apply_frame_filter G frame flags values low high else PY_BT_ERROR in
  bind (consult_filters G frame_filters raw_arg frame flags values low high)
       (fun result =>
          if inbuilt_wanted frame_filters raw_arg result
          then bind (emit inbuilt_backtrace) (fun _ => inbuilt) else ret tt)
  = ((if filters_wanted frame_filters raw_arg
      then [apply_frame_filter_call frame flags values low high] else [])
     ++ (if inbuilt_wanted frame_filters raw_arg status
         then inbuilt_backtrace :: trace inbuilt else []),
     if inbuilt_wanted frame_filters raw_arg status
     then result inbuilt else Returns tt).
Proof.
  intros status. rewrite consult_filters_eq.
  rewrite (bind_returns _ _ status) by reflexivity.
  cbn [trace result fst snd]. fold status.
  destruct (inbuilt_wanted frame_filters raw_arg status).
  - rewrite bind_emit. reflexivity.
  - reflexivity.
Qed.

Lemma in_dispatch_trace (call : list event) (wanted : bool)
    (inbuilt : list event) :
  (forall e, In e call -> e <> inbuilt_backtrace) ->
  In inbuilt_backtrace
     (call ++ (if wanted then inbuilt_backtrace :: inbuilt else []))
  <-> wanted = true.
Proof.
  intros Hcall. rewrite in_app_iff. split.
  - intros [H | H].
    + exfalso. exact (Hcall _ H eq_refl).
    + destruct wanted; [reflexivity | destruct H].
  - intros ->. right. left. reflexivity.
Qed.

Lemma filter_call_not_mark (wanted : bool) (c : event) :
  c <> inbuilt_backtrace ->
  forall e, In e (if wanted then [c] else []) -> e <> inbuilt_backtrace.
Proof.
  intros Hc e H. destruct wanted; [|destruct H].
  destruct H as [<- | []]. exact Hc.
Qed.

Lemma in_list_trace (name : string) (body : list event) :
  In inbuilt_backtrace (ui_out_list_begin name :: body ++ [ui_out_list_end])
  <-> In inbuilt_backtrace body.
Proof.
  cbn [In]. rewrite in_app_iff. cbn [In]. split.
  - intros [H | [H | [H | []]]]; try discriminate. exact H.
  - intros H. right. left. exact H.
Qed.

Lemma stack_list_frames_within (G : collaborators) (frame_filters : Z)
    (stack : list frame_info) (raw_arg frame_low frame_high : Z) :
  Z.max 0 frame_low < Z.of_nat (List.length stack) ->
  stack_list_frames G frame_filters stack raw_arg frame_low frame_high =
  ui_out_list "stack"
    (bind (consult_filters G frame_filters raw_arg stack
             [PRINT_LEVEL; PRINT_FRAME_INFO] PRINT_NO_VALUES
             (py_frame_low frame_low) frame_high)
       (fun result =>
          if inbuilt_wanted frame_filters raw_arg result
          then bind (emit inbuilt_backtrace)
                 (fun _ => print_frames
                             (fst (position_frame stack 0 frame_low))
                             (Z.max 0 frame_low) frame_high)
          else ret tt)).
Proof.
  intros H. unfold stack_list_frames.
  destruct (position_frame_within stack frame_low H) as (f & prev & ->).
  reflexivity.
Qed.

Lemma stack_list_args_within (G : collaborators) (frame_filters : Z)
    (stack : list frame_info) (raw_arg : Z) (values : print_values)
    (frame_low frame_high : Z) :
  Z.max 0 frame_low < Z.of_nat (List.length stack) ->
  stack_list_args G frame_filters stack raw_arg values frame_low frame_high =
  ui_out_list "stack-args"
    (bind (consult_filters G frame_filters raw_arg stack
             [PRINT_LEVEL; PRINT_ARGS] values
             (py_frame_low frame_low) frame_high)
       (fun result =>
          if inbuilt_wanted frame_filters raw_arg result
          then bind (emit inbuilt_backtrace)
                 (fun _ => list_frames_args G values
                             (fst (position_frame stack 0 frame_low))
                             (Z.max 0 frame_low) frame_high)
          else ret tt)).
Proof.
  intros H. unfold stack_list_args.
  destruct (position_frame_within stack frame_low H) as (f & prev & ->).
  reflexivity.
Qed.



(** ** What the inbuilt listing never does

    A property of events that holds of every call the listing makes holds of
    its whole trace. *)
Section Quiet.

Context (P : event -> Prop).

Lemma quiet_ret {A} (a : A) : quiet P (ret a).
Proof. constructor. Qed.

Lemma quiet_throw {A} (e : gdb_exception) : quiet P (@throw A e).
Proof. constructor. Qed.

Lemma quiet_emit (e : event) : P e -> quiet P (emit e).
Proof. intros H. repeat constructor. exact H. Qed.

Lemma quiet_bind {A B} (c : M A) (k : A -> M B) :
  quiet P c -> (forall a, quiet P (k a)) -> quiet P (bind c k).
Proof.
  unfold quiet. destruct c as [t [a|e]]; simpl; intros Hc Hk.
  - specialize (Hk a). destruct (k a) as [t' r]. simpl in *.
    apply Forall_app. split; assumption.
  - exact Hc.
Qed.

Lemma quiet_assert (c : bool) (text : string) : quiet P (gdb_assert c text).
Proof. destruct c; constructor. Qed.

Lemma quiet_tuple {A} (name : option string) (body : M A) :
  P (ui_out_tuple_begin name) -> P ui_out_tuple_end ->
  quiet P body -> quiet P (ui_out_tuple name body).
Proof.
  unfold quiet, ui_out_tuple. cbn [trace fst]. intros Hb He H.
  constructor; [exact Hb|]. apply Forall_app. split; [exact H|].
  repeat constructor. exact He.
Qed.

Lemma quiet_list {A} (name : string) (body : M A) :
  P (ui_out_list_begin name) -> P ui_out_list_end ->
  quiet P body -> quiet P (ui_out_list name body).
Proof.
  unfold quiet, ui_out_list. cbn [trace fst]. intros Hb He H.
  constructor; [exact Hb|]. apply Forall_app. split; [exact H|].
  repeat constructor. exact He.
Qed.

(** [P] holds of everything but, possibly, a call to the frame filters. *)
Hypothesis P_listing : forall e, is_filter_call e = false -> P e.

Ltac quiet_step :=
  first
    [ apply quiet_ret | apply quiet_throw | apply quiet_assert
    | apply quiet_emit; apply P_listing; reflexivity
    | apply quiet_tuple; [apply P_listing; reflexivity
                         | apply P_listing; reflexivity | ]
    | apply quiet_list; [apply P_listing; reflexivity
                        | apply P_listing; reflexivity | ]
    | apply quiet_bind; [ | intros ]
    | match goal with
      | |- quiet P (if ?b then _ else _) => destruct b
      | |- quiet P (match ?o with Some _ => _ | None => _ end) => destruct o
      end ].

Lemma list_arg_or_local_quiet (G : collaborators) (arg : frame_arg)
    (what : what_to_list) (values : print_values) :
  quiet P (list_arg_or_local G arg what values).
Proof.
  unfold list_arg_or_local, list_arg_or_local_fields. repeat quiet_step.
Qed.

Lemma list_symbol_quiet (G : collaborators) (what : what_to_list)
    (values : print_values) (fi : frame_info) (b : list block) (s : symbol) :
  quiet P (list_symbol G what values fi b s).
Proof.
  unfold list_symbol, canonical_symbol, fetch_frame_args, list_frame_args.
  destruct values; repeat quiet_step; apply list_arg_or_local_quiet.
Qed.

Lemma list_block_symbols_quiet (G : collaborators) (what : what_to_list)
    (values : print_values) (fi : frame_info) (b : list block)
    (syms : list symbol) :
  quiet P (list_block_symbols G what values fi b syms).
Proof.
  induction syms as [|s rest IH]; cbn [list_block_symbols].
  - apply quiet_ret.
  - apply quiet_bind; [apply list_symbol_quiet | intros; exact IH].
Qed.

Lemma list_blocks_quiet (G : collaborators) (what : what_to_list)
    (values : print_values) (fi : frame_info) (b : list block) :
  quiet P (list_blocks G what values fi b).
Proof.
  induction b as [|blk superblock IH]; cbn [list_blocks].
  - apply quiet_ret.
  - apply quiet_bind; [apply list_block_symbols_quiet | intros].
    destruct (BLOCK_FUNCTION blk); [apply quiet_ret | exact IH].
Qed.

Lemma list_args_or_locals_quiet (G : collaborators) (what : what_to_list)
    (values : print_values) (fi : frame_info) :
  quiet P (list_args_or_locals G what values fi).
Proof.
  unfold list_args_or_locals. quiet_step. apply list_blocks_quiet.
Qed.

Lemma list_frames_args_quiet (G : collaborators) (values : print_values)
    (fi : list frame_info) (i frame_high : Z) :
  quiet P (list_frames_args G values fi i frame_high).
Proof.
  revert i. induction fi as [|f prev IH]; intros i; cbn [list_frames_args].
  - apply quiet_ret.
  - destruct ((i <=? frame_high) || (frame_high =? -1)); [|apply quiet_ret].
    apply quiet_bind; [|intros; apply IH].
    apply quiet_tuple; try (apply P_listing; reflexivity).
    apply quiet_bind; [quiet_step | intros; apply list_args_or_locals_quiet].
Qed.

Lemma print_frames_quiet (fi : list frame_info) (i frame_high : Z) :
  quiet P (print_frames fi i frame_high).
Proof.
  revert i. induction fi as [|f prev IH]; intros i; cbn [print_frames].
  - apply quiet_ret.
  - destruct ((i <=? frame_high) || (frame_high =? -1)); [|apply quiet_ret].
    apply quiet_bind; [|intros; apply IH]. quiet_step.
Qed.

End Quiet.

(** ** The frame window of the two commands that take one *)

Lemma inbuilt_ran (G : collaborators) (frame_filters raw_arg : Z)
    (frame : list frame_info) (flags : list frame_filter_flag)
    (values : print_values) (low high : Z) (name : string)
    (inbuilt : M unit) :
  In inbuilt_backtrace
    (trace (ui_out_list name
       (bind (consult_filters G frame_filters raw_arg frame flags values
                low high)
          (fun result =>
             if inbuilt_wanted frame_filters raw_arg result
             then bind (emit inbuilt_backtrace) (fun _ => inbuilt)
             else ret tt)))) ->
  ui_out_list name
    (bind (consult_filters G frame_filters raw_arg frame flags values
             low high)
       (fun result =>
          if inbuilt_wanted frame_filters raw_arg result
          then bind (emit inbuilt_backtrace) (fun _ => inbuilt)
          else ret tt))
  = (ui_out_list_begin name
       :: trace (consult_filters G frame_filters raw_arg frame flags values
                   low high)
       ++ inbuilt_backtrace :: trace inbuilt ++ [ui_out_list_end],
     result inbuilt).
Proof.
  unfold ui_out_list. rewrite dispatch_trace, consult_filters_eq.
  cbn [trace result fst snd]. rewrite in_list_trace.
  rewrite in_dispatch_trace by (apply filter_call_not_mark; discriminate).
  intros ->. rewrite <- app_assoc. reflexivity.
Qed.

(** C3: for bounds [0 <= low <= high] below the depth of the stack, the
    inbuilt listing of [-stack-list-frames] asks for the records of exactly
    the [high - low + 1] frames at depths [low] .. [high], innermost first,
    each printed with its own level; the inbuilt listing of
    [-stack-list-arguments] writes one "frame" tuple for each of the same
    frames, in the same order, with the levels [low] .. [high]. *)
Theorem frame_window_lists_low_to_high (G : collaborators)
    (frame_filters raw_arg : Z) (stack : list frame_info)
    (values : print_values) (low high : Z) :
  0 <= low -> low <= high -> high < Z.of_nat (List.length stack) ->
  In inbuilt_backtrace
     (trace (stack_list_frames G frame_filters stack raw_arg low high)) ->
  In inbuilt_backtrace
     (trace (stack_list_args G frame_filters stack raw_arg values low high)) ->
  Forall (fun f => result (list_args_or_locals G arguments values f)
                   = Returns tt)
         (frames_between low high stack) ->
  let window := frames_between low high stack in
  List.length window = Z.to_nat (high - low + 1)
  /\ (forall k, (k < Z.to_nat (high - low + 1))%nat ->
        nth_error window k = nth_error stack (Z.to_nat low + k))
  /\ map fst (with_levels low window)
     = map (fun k => low + Z.of_nat k) (seq 0 (Z.to_nat (high - low + 1)))
  /\ map snd (with_levels low window) = window
  /\ stack_list_frames G frame_filters stack raw_arg low high
     = (ui_out_list_begin "stack"
          :: trace (consult_filters G frame_filters raw_arg stack
                      [PRINT_LEVEL; PRINT_FRAME_INFO] PRINT_NO_VALUES
                      low high)
          ++ inbuilt_backtrace :: map frame_record window
          ++ [ui_out_list_end],
        Returns tt)
  /\ stack_list_args G frame_filters stack raw_arg values low high
     = (ui_out_list_begin "stack-args"
          :: trace (consult_filters G frame_filters raw_arg stack
                      [PRINT_LEVEL; PRINT_ARGS] values low high)
          ++ inbuilt_backtrace
          :: flat_map (frame_args_record G values) (with_levels low window)
          ++ [ui_out_list_end],
        Returns tt).
Proof.
  intros Hlow Hle Hhigh Hframes Hargs Hreturn window.
  assert (Hmax : Z.max 0 low = low) by lia.
  assert (Hpy : py_frame_low low = low).
  { unfold py_frame_low. destruct (Z.eqb_spec low (-1)); [lia | reflexivity]. }
  assert (Hpos : position_frame stack 0 low = (skipn (Z.to_nat low) stack, low)).
  { rewrite position_frame_reach by lia. rewrite Z.sub_0_r. reflexivity. }
  assert (Hlen : List.length window = Z.to_nat (high - low + 1))
    by (apply frames_between_length; lia).
  repeat split.
  - exact Hlen.
  - intros k Hk. apply frames_between_nth; assumption.
  - rewrite with_levels_levels, Hlen. reflexivity.
  - apply with_levels_frames.
  - rewrite stack_list_frames_within in * by lia.
    rewrite (inbuilt_ran _ _ _ _ _ _ _ _ _ _ Hframes).
    rewrite Hpos, Hmax, Hpy. cbn [fst].
    rewrite print_frames_window by lia. reflexivity.
  - rewrite stack_list_args_within in * by lia.
    rewrite (inbuilt_ran _ _ _ _ _ _ _ _ _ _ Hargs).
    rewrite Hpos, Hmax, Hpy. cbn [fst].
    rewrite list_frames_args_window by (assumption || lia). reflexivity.
Qed.

(** C4: when the low bound is at or past the depth of the stack, both
    commands throw their "Not enough frames in stack." error with nothing
    written; they do not return, so no empty listing is produced. *)
Theorem low_bound_past_the_stack_is_an_error (G : collaborators)
    (frame_filters raw_arg : Z) (stack : list frame_info)
    (values : print_values) (low high : Z) :
  Z.of_nat (List.length stack) <= low ->
  stack_list_frames G frame_filters stack raw_arg low high
  = ([], Throws (gdb_error "-stack-list-frames: Not enough frames in stack."))
  /\ stack_list_args G frame_filters stack raw_arg values low high
     = ([], Throws (gdb_error
                      "-stack-list-arguments: Not enough frames in stack.")).
Proof.
  intros H.
  assert (E : fst (position_frame stack 0 low) = [])
    by (apply position_frame_past; lia).
  unfold stack_list_frames, stack_list_args.
  destruct (position_frame stack 0 low) as [fi i]. cbn [fst] in E. subst fi.
  split; reflexivity.
Qed.

(** C9: the walk to the low bound and its check come before the call to the
    frame filters: with the low bound at or past the depth of the stack and
    the filters enabled and not opted out of, both commands throw "Not
    enough frames in stack." and their traces hold no call to the filters,
    whatever the filters would have returned. *)
Theorem frames_are_walked_before_the_filters_are_called (G : collaborators)
    (frame_filters raw_arg : Z) (stack : list frame_info)
    (values : print_values) (low high : Z) :
  Z.of_nat (List.length stack) <= low ->
  filters_wanted frame_filters raw_arg = true ->
  (existsb is_filter_call
     (trace (stack_list_frames G frame_filters stack raw_arg low high))
   = false
   /\ result (stack_list_frames G frame_filters stack raw_arg low high)
      = Throws (gdb_error "-stack-list-frames: Not enough frames in stack."))
  /\ (existsb is_filter_call
        (trace (stack_list_args G frame_filters stack raw_arg values
                  low high))
      = false
      /\ result (stack_list_args G frame_filters stack raw_arg values
                   low high)
         = Throws (gdb_error
                     "-stack-list-arguments: Not enough frames in stack.")).
Proof.
  intros H _.
  assert (E : fst (position_frame stack 0 low) = [])
    by (apply position_frame_past; lia).
  unfold stack_list_frames, stack_list_args.
  destruct (position_frame stack 0 low) as [fi i]. cbn [fst] in E. subst fi.
  repeat split.
Qed.

Lemma print_frames_unbounded (fi : list frame_info) (i : Z) :
  print_frames fi i (-1) = (map frame_record fi, Returns tt).
Proof.
  revert i. induction fi as [|f prev IH]; intros i; cbn [print_frames].
  - reflexivity.
  - rewrite orb_true_r, bind_emit, IH. reflexivity.
Qed.

Lemma py_frame_low_not_minus_one (frame_low : Z) :
  py_frame_low frame_low <> -1.
Proof.
  unfold py_frame_low. destruct (Z.eqb_spec frame_low (-1)); lia.
Qed.

Lemma dispatch_quiet (P : event -> Prop) (G : collaborators)
    (frame_filters raw_arg : Z) (frame : list frame_info)
    (flags : list frame_filter_flag) (values : print_values) (low high : Z)
    (name : string) (inbuilt : M unit) :
  (forall e, is_filter_call e = false -> P e) ->
  P (apply_frame_filter_call frame flags values low high) ->
  quiet P inbuilt ->
  quiet P
    (ui_out_list name
       (bind (consult_filters G frame_filters raw_arg frame flags values
                low high)
          (fun result =>
             if inbuilt_wanted frame_filters raw_arg result
             then bind (emit inbuilt_backtrace) (fun _ => inbuilt)
             else ret tt))).
Proof.
  intros HP Hcall Hin. apply quiet_list; try (apply HP; reflexivity).
  apply quiet_bind.
  - unfold consult_filters, call_frame_filter.
    destruct (filters_wanted frame_filters raw_arg); [|apply quiet_ret].
    apply quiet_bind; [apply quiet_emit; exact Hcall | intros; apply quiet_ret].
  - intros r. destruct (inbuilt_wanted frame_filters raw_arg r);
      [|apply quiet_ret].
    apply quiet_bind; [apply quiet_emit, HP; reflexivity | intros; exact Hin].
Qed.

(** C8: with the low bound -1 the walk does not advance: the inbuilt loops
    start at the innermost frame with the counter at 0 and the high bound as
    given, while the frame filters, when called, are handed 0 as their low
    bound.  Whatever the low bound, no call to the filters carries -1 as its
    low bound. *)
Theorem unbounded_low_is_zero_for_the_filters_only (G : collaborators)
    (frame_filters raw_arg : Z) (f : frame_info) (older : list frame_info)
    (values : print_values) (low high : Z) :
  let stack := f :: older in
  let frames_status :=
    if filters_wanted frame_filters raw_arg
    then apply_frame_filter G stack [PRINT_LEVEL; PRINT_FRAME_INFO]
           PRINT_NO_VALUES 0 high
    else PY_BT_ERROR in
  let args_status :=
    if filters_wanted frame_filters raw_arg
    then apply_frame_filter G stack [PRINT_LEVEL; PRINT_ARGS] values 0 high
    else PY_BT_ERROR in
  position_frame stack 0 (-1) = (stack, 0)
  /\ trace (stack_list_frames G frame_filters stack raw_arg (-1) high)
     = ui_out_list_begin "stack"
       :: (if filters_wanted frame_filters raw_arg
           then [apply_frame_filter_call stack
                   [PRINT_LEVEL; PRINT_FRAME_INFO] PRINT_NO_VALUES 0 high]
           else [])
       ++ (if inbuilt_wanted frame_filters raw_arg frames_status
           then inbuilt_backtrace :: trace (print_frames stack 0 high)
           else [])
       ++ [ui_out_list_end]
  /\ trace (stack_list_args G frame_filters stack raw_arg values (-1) high)
     = ui_out_list_begin "stack-args"
       :: (if filters_wanted frame_filters raw_arg
           then [apply_frame_filter_call stack
                   [PRINT_LEVEL; PRINT_ARGS] values 0 high]
           else [])
       ++ (if inbuilt_wanted frame_filters raw_arg args_status
           then inbuilt_backtrace
                :: trace (list_frames_args G values stack 0 high)
           else [])
       ++ [ui_out_list_end]
  /\ print_frames stack 0 (-1) = (map frame_record stack, Returns tt)
  /\ Forall (fun e => filter_low e <> Some (-1))
       (trace (stack_list_frames G frame_filters stack raw_arg low high))
  /\ Forall (fun e => filter_low e <> Some (-1))
       (trace (stack_list_args G frame_filters stack raw_arg values
                 low high)).
Proof.
  intros stack frames_status args_status.
  subst frames_status args_status stack.
  assert (Hquiet : forall e, is_filter_call e = false ->
                             filter_low e <> Some (-1))
    by (intros [] He; discriminate).
  assert (Hcall : forall flags v,
            filter_low (apply_frame_filter_call (f :: older) flags v
                          (py_frame_low low) high) <> Some (-1)).
  { intros flags v. cbn [filter_low]. intros [= E].
    exact (py_frame_low_not_minus_one low E). }
  repeat split.
  - rewrite stack_list_frames_within by (cbn [List.length]; lia).
    rewrite position_frame_here by lia.
    change (py_frame_low (-1)) with 0. change (Z.max 0 (-1)) with 0.
    unfold ui_out_list. rewrite dispatch_trace. cbn [trace fst].
    rewrite <- app_assoc. reflexivity.
  - rewrite stack_list_args_within by (cbn [List.length]; lia).
    rewrite position_frame_here by lia.
    change (py_frame_low (-1)) with 0. change (Z.max 0 (-1)) with 0.
    unfold ui_out_list. rewrite dispatch_trace. cbn [trace fst].
    rewrite <- app_assoc. reflexivity.
  - apply print_frames_unbounded.
  - unfold stack_list_frames.
    destruct (position_frame (f :: older) 0 low) as [[|f' prev] i].
    + constructor.
    + apply dispatch_quiet; [exact Hquiet | apply Hcall |].
      apply print_frames_quiet. exact Hquiet.
  - unfold stack_list_args.
    destruct (position_frame (f :: older) 0 low) as [[|f' prev] i].
    + constructor.
    + apply dispatch_quiet; [exact Hquiet | apply Hcall |].
      apply list_frames_args_quiet. exact Hquiet.
Qed.

(** ** The classifier *)

(** C5: [print_me] is false for every symbol of one of the eight excluded
    classes, whatever is listed; for a symbol of one of the seven candidate
    classes it is true under [all], the negation of [SYMBOL_IS_ARGUMENT]
    under [locals] and [SYMBOL_IS_ARGUMENT] itself under [arguments], so
    that exactly one of [locals] and [arguments] includes the symbol; for a
    symbol of any class the switch does not name, which takes the [default]
    label, it is false like for an excluded one. *)
Theorem print_me_classifies (what : what_to_list) (s : symbol) :
  if excluded_class (SYMBOL_CLASS s)
  then candidate_class (SYMBOL_CLASS s) = false
       /\ print_me what s = false
  else if candidate_class (SYMBOL_CLASS s)
  then print_me all s = true
       /\ print_me locals s = negb (SYMBOL_IS_ARGUMENT s)
       /\ print_me arguments s = SYMBOL_IS_ARGUMENT s
       /\ xorb (print_me locals s) (print_me arguments s) = true
  else (exists n, SYMBOL_CLASS s = LOC_OTHER n)
       /\ print_me what s = false.
Proof.
  unfold print_me.
  destruct (SYMBOL_CLASS s) as [| | | | | | | | | | | | | | |n];
    cbn [excluded_class candidate_class];
    repeat split; try (destruct (SYMBOL_IS_ARGUMENT s); reflexivity).
  exists n. reflexivity.
Qed.

(** ** The arity check of [-stack-list-arguments] *)

(** C10 fails on the code: [--no-frame-filters] followed by two more
    arguments passes the usage check, [argc >= 3] then makes the command
    read [argv[1 + raw_arg]] and [argv[2 + raw_arg]], and the second index
    is 3, the argument count.  [--no-frame-filters] alone passes the check
    too, and [argv[raw_arg]] is then read at index 1, the argument count. *)
Theorem list_args_reads_past_argv (G : collaborators) (frame_filters : Z)
    (stack : list frame_info) (a b : string) :
  list_args_usage_error 3 (raw_arg_of ["--no-frame-filters"; a; b]%string)
  = false
  /\ mi_cmd_stack_list_args G frame_filters stack
       ["--no-frame-filters"; a; b]%string
     = ([], Throws (argv_overrun 3))
  /\ list_args_usage_error 1 (raw_arg_of ["--no-frame-filters"]%string)
     = false
  /\ mi_cmd_stack_list_args G frame_filters stack
       ["--no-frame-filters"]%string
     = ([], Throws (argv_overrun 1)).
Proof. repeat split. Qed.

(** ** One request *)

Lemma list_arg_or_local_fields_eq (G : collaborators) (arg : frame_arg)
    (what : what_to_list) (values : print_values) :
  list_arg_or_local_fields G arg what values =
  (record_fields (request_name arg)
     (what_eqb what all && SYMBOL_IS_ARGUMENT (sym arg))
     (if values_eqb values PRINT_SIMPLE_VALUES
      then Some (type_print G (SYMBOL_TYPE (sym arg))) else None)
     (if is_some (val arg) || is_some (error arg)
      then Some (value_text G arg) else None),
   Returns tt).
Proof.
  unfold list_arg_or_local_fields, record_fields, request_name.
  rewrite bind_emit.
  destruct (what_eqb what all && SYMBOL_IS_ARGUMENT (sym arg));
    destruct (values_eqb values PRINT_SIMPLE_VALUES);
    destruct (is_some (val arg) || is_some (error arg)); reflexivity.
Qed.

Lemma list_arg_or_local_passes (G : collaborators) (arg : frame_arg)
    (what : what_to_list) (values : print_values) :
  frame_arg_asserts values arg = true ->
  list_arg_or_local G arg what values =
  (request_events G arg what values, Returns tt).
Proof.
  unfold frame_arg_asserts, list_arg_or_local, request_events.
  intros H. apply andb_prop in H. destruct H as [H H3].
  apply andb_prop in H. destruct H as [H1 H2]. rewrite H1, H2, H3.
  cbn [gdb_assert]. rewrite !bind_ret.
  unfold ui_out_tuple. rewrite list_arg_or_local_fields_eq.
  destruct (negb (values_eqb values PRINT_NO_VALUES) || what_eqb what all);
    reflexivity.
Qed.

Lemma list_arg_or_local_fails (G : collaborators) (arg : frame_arg)
    (what : what_to_list) (values : print_values) :
  frame_arg_asserts values arg = false ->
  exists text,
    list_arg_or_local G arg what values = ([], Throws (internal_error text)).
Proof.
  unfold frame_arg_asserts, list_arg_or_local. intros H.
  destruct (assert_val_xor_error arg); [|eexists; reflexivity].
  destruct (assert_values values arg); [|eexists; reflexivity].
  destruct (assert_entry_kind arg); [discriminate | eexists; reflexivity].
Qed.

Lemma list_frame_args_passes (G : collaborators) (arg entryarg : frame_arg)
    (what : what_to_list) (values : print_values) :
  kind_eqb (entry_kind arg) print_entry_values_only
  || frame_arg_asserts values arg = true ->
  kind_eqb (entry_kind entryarg) print_entry_values_no
  || frame_arg_asserts values entryarg = true ->
  list_frame_args G arg entryarg what values =
  ((if kind_eqb (entry_kind arg) print_entry_values_only then []
    else request_events G arg what values)
   ++ (if kind_eqb (entry_kind entryarg) print_entry_values_no then []
       else request_events G entryarg what values),
   Returns tt).
Proof.
  unfold list_frame_args. intros Ha He.
  destruct (kind_eqb (entry_kind arg) print_entry_values_only);
    destruct (kind_eqb (entry_kind entryarg) print_entry_values_no);
    cbn [negb orb] in *;
    rewrite ?list_arg_or_local_passes by assumption;
    rewrite ?bind_ret; reflexivity.
Qed.

Lemma fields_named_app (name : string) (t u : list event) :
  fields_named name (t ++ u) = fields_named name t ++ fields_named name u.
Proof.
  induction t as [|e t IH]; cbn [app fields_named]; [reflexivity|].
  destruct e; try exact IH.
  destruct (String.eqb name0 name); [cbn [app]; f_equal|]; exact IH.
Qed.

Lemma request_events_name (G : collaborators) (arg : frame_arg)
    (what : what_to_list) (values : print_values) :
  fields_named "name" (request_events G arg what values)
  = [request_name arg].
Proof.
  unfold request_events, record, record_fields.
  destruct (negb (values_eqb values PRINT_NO_VALUES) || what_eqb what all);
    destruct (what_eqb what all && SYMBOL_IS_ARGUMENT (sym arg));
    destruct (values_eqb values PRINT_SIMPLE_VALUES);
    destruct (is_some (val arg) || is_some (error arg)); reflexivity.
Qed.

Lemma fetch_frame_args_trace (G : collaborators) (values : print_values)
    (sym2 : symbol) (fi : frame_info) :
  fields_named "name" (trace (fetch_frame_args G values sym2 fi)) = [].
Proof.
  unfold fetch_frame_args.
  destruct values; try reflexivity.
  destruct (not_aggregate (check_typedef G (SYMBOL_TYPE sym2))); reflexivity.
Qed.

Lemma append_empty (n : string) : String.append n "" = n.
Proof.
  induction n as [|c n IH]; cbn [String.append]; [|rewrite IH]; reflexivity.
Qed.

Lemma listed_normal_request_is_plain (values : print_values)
    (arg : frame_arg) :
  kind_eqb (entry_kind arg) print_entry_values_only = false ->
  request_name arg = SYMBOL_PRINT_NAME (sym arg).
Proof. unfold request_name. intros ->. apply append_empty. Qed.

Lemma listed_entry_request_is_suffixed (values : print_values)
    (arg : frame_arg) :
  kind_eqb (entry_kind arg) print_entry_values_no = false ->
  frame_arg_asserts values arg = true ->
  request_name arg = String.append (SYMBOL_PRINT_NAME (sym arg)) "@entry".
Proof.
  unfold request_name, frame_arg_asserts, assert_entry_kind.
  intros Hno H. rewrite Hno in H.
  destruct (kind_eqb (entry_kind arg) print_entry_values_only);
    [reflexivity|].
  rewrite !andb_false_r in H. discriminate.
Qed.

Lemma list_symbol_passes (G : collaborators)
    (what : what_to_list) (values : print_values) (fi : frame_info)
    (b : list block) (s sym2 : symbol) (arg entryarg : frame_arg) :
  print_me what s = true ->
  canonical_symbol G s b = ret sym2 ->
  result (fetch_frame_args G values sym2 fi) = Returns (arg, entryarg) ->
  kind_eqb (entry_kind arg) print_entry_values_only
  || frame_arg_asserts values arg = true ->
  kind_eqb (entry_kind entryarg) print_entry_values_no
  || frame_arg_asserts values entryarg = true ->
  list_symbol G what values fi b s
  = (trace (fetch_frame_args G values sym2 fi)
     ++ (if kind_eqb (entry_kind arg) print_entry_values_only then []
         else request_events G arg what values)
     ++ (if kind_eqb (entry_kind entryarg) print_entry_values_no then []
         else request_events G entryarg what values),
     Returns tt).
Proof.
  intros Hme Hsym Hfetch Ha He.
  unfold list_symbol. rewrite Hme, Hsym, bind_ret.
  rewrite (bind_returns _ _ (arg, entryarg)) by exact Hfetch.
  cbn [fst snd]. rewrite list_frame_args_passes by assumption.
  reflexivity.
Qed.

(** C7: for a symbol that is listed, once [arg] and [entryarg] are fetched
    [list_arg_or_local] is called on [arg] unless its entry kind is
    [print_entry_values_only], and on [entryarg] whenever its entry kind is
    not [print_entry_values_no], each call writing one record; a record
    written for a request whose kind is [print_entry_values_only] has
    "@entry" appended to the symbol's name.  As [read_frame_arg] leaves a
    request to list, the names written for the symbol are its name, its name
    with "@entry", or both in this order, as the two entry kinds have it. *)
Theorem requests_are_listed_by_entry_kind (G : collaborators)
    (what : what_to_list) (values : print_values) (fi : frame_info)
    (b : list block) (s sym2 : symbol) (arg entryarg : frame_arg) :
  print_me what s = true ->
  canonical_symbol G s b = ret sym2 ->
  result (fetch_frame_args G values sym2 fi) = Returns (arg, entryarg) ->
  kind_eqb (entry_kind arg) print_entry_values_only
  || frame_arg_asserts values arg = true ->
  kind_eqb (entry_kind entryarg) print_entry_values_no
  || frame_arg_asserts values entryarg = true ->
  leaves_a_request arg entryarg = true ->
  list_symbol G what values fi b s
  = (trace (fetch_frame_args G values sym2 fi)
     ++ (if kind_eqb (entry_kind arg) print_entry_values_only then []
         else request_events G arg what values)
     ++ (if kind_eqb (entry_kind entryarg) print_entry_values_no then []
         else request_events G entryarg what values),
     Returns tt)
  /\ fields_named "name" (trace (list_symbol G what values fi b s))
     = (if kind_eqb (entry_kind arg) print_entry_values_only then []
        else [SYMBOL_PRINT_NAME (sym arg)])
       ++ (if kind_eqb (entry_kind entryarg) print_entry_values_no then []
           else [String.append (SYMBOL_PRINT_NAME (sym entryarg)) "@entry"])
  /\ fields_named "name" (request_events G arg what values)
     = [String.append (SYMBOL_PRINT_NAME (sym arg))
          (if kind_eqb (entry_kind arg) print_entry_values_only
           then "@entry" else "")]
  /\ (fields_named "name" (trace (list_symbol G what values fi b s))
      = [SYMBOL_PRINT_NAME (sym arg)]
      \/ fields_named "name" (trace (list_symbol G what values fi b s))
         = [String.append (SYMBOL_PRINT_NAME (sym entryarg)) "@entry"]
      \/ fields_named "name" (trace (list_symbol G what values fi b s))
         = [SYMBOL_PRINT_NAME (sym arg);
            String.append (SYMBOL_PRINT_NAME (sym entryarg)) "@entry"]).
Proof.
  intros Hme Hsym Hfetch Ha He Hleaves.
  assert (E : list_symbol G what values fi b s
              = (trace (fetch_frame_args G values sym2 fi)
                 ++ (if kind_eqb (entry_kind arg) print_entry_values_only
                     then [] else request_events G arg what values)
                 ++ (if kind_eqb (entry_kind entryarg) print_entry_values_no
                     then [] else request_events G entryarg what values),
                 Returns tt))
    by (apply list_symbol_passes; assumption).
  assert (N : fields_named "name" (trace (list_symbol G what values fi b s))
     = (if kind_eqb (entry_kind arg) print_entry_values_only then []
        else [SYMBOL_PRINT_NAME (sym arg)])
       ++ (if kind_eqb (entry_kind entryarg) print_entry_values_no then []
           else [String.append (SYMBOL_PRINT_NAME (sym entryarg)) "@entry"])).
  { rewrite E. cbn [trace fst].
    rewrite !fields_named_app, fetch_frame_args_trace. cbn [app].
    f_equal.
    + destruct (kind_eqb (entry_kind arg) print_entry_values_only) eqn:K;
        [reflexivity|].
      rewrite request_events_name.
      rewrite (listed_normal_request_is_plain values) by exact K.
      reflexivity.
    + destruct (kind_eqb (entry_kind entryarg) print_entry_values_no) eqn:K;
        [reflexivity|].
      rewrite request_events_name. cbn [orb] in He.
      rewrite (listed_entry_request_is_suffixed values) by assumption.
      reflexivity. }
  split; [exact E | split; [exact N | split]].
  - apply request_events_name.
  - rewrite N. unfold leaves_a_request in Hleaves.
    destruct (kind_eqb (entry_kind arg) print_entry_values_only),
      (kind_eqb (entry_kind entryarg) print_entry_values_no);
      cbn [app]; try discriminate Hleaves; auto.
Qed.

(** ** [PRINT_SIMPLE_VALUES] *)

Lemma read_request_passes (values : print_values) (arg : frame_arg) :
  frame_arg_asserts PRINT_ALL_VALUES arg = true ->
  is_some (val arg) || is_some (error arg) = true
  /\ frame_arg_asserts PRINT_SIMPLE_VALUES arg = true.
Proof.
  unfold frame_arg_asserts, assert_values. cbn [values_eqb andb orb].
  destruct (assert_val_xor_error arg), (assert_entry_kind arg),
    (is_some (val arg) || is_some (error arg)); cbn; intros H;
    try discriminate; split; reflexivity.
Qed.

Lemma record_without_reads (name : string) (arg_flag : bool)
    (type_text value_text : option string) :
  existsb is_read_call (record name arg_flag type_text value_text) = false.
Proof.
  unfold record, record_fields.
  destruct arg_flag, type_text, value_text; reflexivity.
Qed.

(** The listing of a symbol under [PRINT_SIMPLE_VALUES], by the outcome of
    the test on its type. *)
Lemma simple_values_by_the_test (G : collaborators)
    (what : what_to_list) (fi : frame_info) (b : list block)
    (s sym2 : symbol) :
  print_me what s = true ->
  canonical_symbol G s b = ret sym2 ->
  (not_aggregate (check_typedef G (SYMBOL_TYPE sym2)) = true ->
   well_read sym2 (read_frame_arg G sym2 fi)) ->
  let arg := fst (read_frame_arg G sym2 fi) in
  let entryarg := snd (read_frame_arg G sym2 fi) in
  let name := SYMBOL_PRINT_NAME sym2 in
  let arg_flag := what_eqb what all && SYMBOL_IS_ARGUMENT sym2 in
  let type_text := Some (type_print G (SYMBOL_TYPE sym2)) in
  existsb is_read_call
    (trace (list_symbol G what PRINT_SIMPLE_VALUES fi b s))
  = not_aggregate (check_typedef G (SYMBOL_TYPE sym2))
  /\ list_symbol G what PRINT_SIMPLE_VALUES fi b s
     = if not_aggregate (check_typedef G (SYMBOL_TYPE sym2))
       then (read_frame_arg_call sym2 fi
               :: (if kind_eqb (entry_kind arg) print_entry_values_only
                   then []
                   else record name arg_flag type_text
                          (Some (value_text G arg)))
               ++ (if kind_eqb (entry_kind entryarg) print_entry_values_no
                   then []
                   else record (String.append name "@entry") arg_flag
                          type_text (Some (value_text G entryarg))),
             Returns tt)
       else (record name arg_flag type_text None, Returns tt).
Proof.
  intros Hme Hsym Hread arg entryarg name arg_flag type_text.
  assert (E : list_symbol G what PRINT_SIMPLE_VALUES fi b s
     = if not_aggregate (check_typedef G (SYMBOL_TYPE sym2))
       then (read_frame_arg_call sym2 fi
               :: (if kind_eqb (entry_kind arg) print_entry_values_only
                   then []
                   else record name arg_flag type_text
                          (Some (value_text G arg)))
               ++ (if kind_eqb (entry_kind entryarg) print_entry_values_no
                   then []
                   else record (String.append name "@entry") arg_flag
                          type_text (Some (value_text G entryarg))),
             Returns tt)
       else (record name arg_flag type_text None, Returns tt)).
  { destruct (not_aggregate (check_typedef G (SYMBOL_TYPE sym2))) eqn:Hsimple.
    - destruct (Hread eq_refl) as (Hs1 & Hs2 & Ha & He).
      fold arg in Hs1, Ha. fold entryarg in Hs2, He.
      assert (Ha' : kind_eqb (entry_kind arg) print_entry_values_only
                    || frame_arg_asserts PRINT_SIMPLE_VALUES arg = true).
      { destruct (kind_eqb (entry_kind arg) print_entry_values_only);
          [reflexivity|].
        apply (read_request_passes PRINT_SIMPLE_VALUES). exact Ha. }
      assert (He' : kind_eqb (entry_kind entryarg) print_entry_values_no
                    || frame_arg_asserts PRINT_SIMPLE_VALUES entryarg = true).
      { destruct (kind_eqb (entry_kind entryarg) print_entry_values_no);
          [reflexivity|].
        apply (read_request_passes PRINT_SIMPLE_VALUES). exact He. }
      rewrite (list_symbol_passes G what PRINT_SIMPLE_VALUES fi b s sym2
                 arg entryarg Hme Hsym); try assumption.
      2:{ unfold fetch_frame_args. rewrite Hsimple, bind_emit.
          unfold arg, entryarg. cbn [result snd ret].
          destruct (read_frame_arg G sym2 fi). reflexivity. }
      unfold fetch_frame_args. rewrite Hsimple, bind_emit.
      cbn [trace fst ret app]. f_equal. f_equal. f_equal.
      + destruct (kind_eqb (entry_kind arg) print_entry_values_only) eqn:K;
          [reflexivity|].
        cbn [orb] in Ha.
        destruct (read_request_passes PRINT_SIMPLE_VALUES arg Ha) as [Hv _].
        unfold request_events. cbn [values_eqb negb orb].
        rewrite Hv, (listed_normal_request_is_plain PRINT_SIMPLE_VALUES) by exact K.
        rewrite Hs1. reflexivity.
      + destruct (kind_eqb (entry_kind entryarg) print_entry_values_no) eqn:K;
          [reflexivity|].
        cbn [orb] in He.
        destruct (read_request_passes PRINT_SIMPLE_VALUES entryarg He)
          as [Hv Hsimp].
        unfold request_events. cbn [values_eqb negb orb].
        rewrite Hv,
          (listed_entry_request_is_suffixed PRINT_SIMPLE_VALUES) by assumption.
        rewrite Hs2. reflexivity.
    - unfold list_symbol. rewrite Hme, Hsym, bind_ret.
      unfold fetch_frame_args. rewrite Hsimple, bind_ret. cbn [fst snd].
      rewrite list_frame_args_passes by reflexivity.
      cbn [zeroed_arg entry_kind kind_eqb app]. rewrite app_nil_r.
      unfold request_events, request_name.
      cbn [zeroed_arg entry_kind kind_eqb values_eqb negb orb sym val error
           is_some].
      rewrite append_empty. reflexivity. }
  split; [|exact E].
  rewrite E. destruct (not_aggregate (check_typedef G (SYMBOL_TYPE sym2))).
  - reflexivity.
  - apply record_without_reads.
Qed.

(** C6: under [PRINT_SIMPLE_VALUES] a listed symbol is read with
    [read_frame_arg] if and only if the code of the type [check_typedef]
    gives for it is none of [TYPE_CODE_ARRAY], [TYPE_CODE_STRUCT] and
    [TYPE_CODE_UNION].  A symbol of such an aggregate type gets one record
    with its name and its type as [type_print] renders it and no value; a
    symbol of any other type gets, for each request listed, a record with
    the name, the same type field and a value field holding the value or the
    error of the request. *)
Theorem simple_values_read_scalars_only (G : collaborators)
    (what : what_to_list) (fi : frame_info) (b : list block)
    (s sym2 : symbol) :
  print_me what s = true ->
  canonical_symbol G s b = ret sym2 ->
  (forall n,
      TYPE_CODE (check_typedef G (SYMBOL_TYPE sym2)) = TYPE_CODE_OTHER n ->
      well_read sym2 (read_frame_arg G sym2 fi)) ->
  let arg := fst (read_frame_arg G sym2 fi) in
  let entryarg := snd (read_frame_arg G sym2 fi) in
  let name := SYMBOL_PRINT_NAME sym2 in
  let arg_flag := what_eqb what all && SYMBOL_IS_ARGUMENT sym2 in
  let type_text := Some (type_print G (SYMBOL_TYPE sym2)) in
  let listing := list_symbol G what PRINT_SIMPLE_VALUES fi b s in
  match TYPE_CODE (check_typedef G (SYMBOL_TYPE sym2)) with
  | TYPE_CODE_ARRAY | TYPE_CODE_STRUCT | TYPE_CODE_UNION =>
      existsb is_read_call (trace listing) = false
      /\ listing = (record name arg_flag type_text None, Returns tt)
  | TYPE_CODE_OTHER _ =>
      existsb is_read_call (trace listing) = true
      /\ listing
         = (read_frame_arg_call sym2 fi
              :: (if kind_eqb (entry_kind arg) print_entry_values_only
                  then []
                  else record name arg_flag type_text
                         (Some (value_text G arg)))
              ++ (if kind_eqb (entry_kind entryarg) print_entry_values_no
                  then []
                  else record (String.append name "@entry") arg_flag
                         type_text (Some (value_text G entryarg))),
            Returns tt)
  end.
Proof.
  intros Hme Hsym Hread arg entryarg name arg_flag type_text listing.
  assert (Htest : not_aggregate (check_typedef G (SYMBOL_TYPE sym2))
                  = match TYPE_CODE (check_typedef G (SYMBOL_TYPE sym2)) with
                    | TYPE_CODE_OTHER _ => true
                    | _ => false
                    end).
  { unfold not_aggregate.
    destruct (TYPE_CODE (check_typedef G (SYMBOL_TYPE sym2))); reflexivity. }
  assert (Hread' : not_aggregate (check_typedef G (SYMBOL_TYPE sym2)) = true ->
                   well_read sym2 (read_frame_arg G sym2 fi)).
  { rewrite Htest.
    destruct (TYPE_CODE (check_typedef G (SYMBOL_TYPE sym2))) as [| | |n] eqn:E;
      intros H; try discriminate H.
    apply (Hread n). reflexivity. }
  destruct (simple_values_by_the_test G what fi b s sym2 Hme Hsym Hread')
    as [Hcalls Hlisting].
  fold arg entryarg name arg_flag type_text listing in Hcalls, Hlisting.
  rewrite Htest in Hcalls, Hlisting.
  destruct (TYPE_CODE (check_typedef G (SYMBOL_TYPE sym2)));
    split; assumption.
Qed.

(** ** A fetch that fails *)

Lemma list_block_symbols_app (G : collaborators) (what : what_to_list)
    (values : print_values) (fi : frame_info) (b : list block)
    (pre rest : list symbol) :
  list_block_symbols G what values fi b (pre ++ rest) =
  bind (list_block_symbols G what values fi b pre)
       (fun _ => list_block_symbols G what values fi b rest).
Proof.
  induction pre as [|s pre IH]; cbn [app list_block_symbols].
  - rewrite bind_ret. reflexivity.
  - rewrite IH, bind_bind. reflexivity.
Qed.

Lemma failed_request_events (G : collaborators) (arg : frame_arg)
    (what : what_to_list) (values : print_values) (message : string) :
  values <> PRINT_NO_VALUES ->
  error arg = Some message -> val arg = None ->
  entry_kind arg = print_entry_values_no ->
  frame_arg_asserts values arg = true
  /\ request_events G arg what values
     = record (SYMBOL_PRINT_NAME (sym arg))
         (what_eqb what all && SYMBOL_IS_ARGUMENT (sym arg))
         (if values_eqb values PRINT_SIMPLE_VALUES
          then Some (type_print G (SYMBOL_TYPE (sym arg))) else None)
         (Some (String.append "<error reading variable: "
                  (String.append message ">"))).
Proof.
  intros Hvalues Herror Hval Hkind. split.
  - unfold frame_arg_asserts, assert_val_xor_error, assert_values,
      assert_entry_kind.
    rewrite Herror, Hval, Hkind. destruct values; try reflexivity.
    contradiction.
  - unfold request_events, request_name, value_text.
    rewrite Herror, Hval, Hkind. cbn [kind_eqb is_some orb].
    rewrite append_empty.
    destruct values; try reflexivity. contradiction.
Qed.

(** C1: a symbol whose normal request comes back from [read_frame_arg] with
    an error does not stop the listing.  [list_arg_or_local] returns, having
    written for the request exactly one record, whose value field is the
    message between "<error reading variable: " and ">".  Whatever follows
    the symbol runs as it would by itself: the later symbols of the block
    and the enclosing blocks up to the function's, and, under
    [-stack-list-arguments], the later frames. *)
Theorem failed_fetch_is_listed_and_the_listing_goes_on (G : collaborators)
    (what : what_to_list) (values : print_values) (fi : frame_info)
    (blk : block) (sup : list block) (pre post : list symbol)
    (s sym2 : symbol) (arg entryarg : frame_arg) (message : string) :
  print_me what s = true ->
  canonical_symbol G s (blk :: sup) = ret sym2 ->
  fetch_frame_args G values sym2 fi
  = ([read_frame_arg_call sym2 fi], Returns (arg, entryarg)) ->
  error arg = Some message ->
  val arg = None ->
  entry_kind arg = print_entry_values_no ->
  kind_eqb (entry_kind entryarg) print_entry_values_no
  || frame_arg_asserts values entryarg = true ->
  BLOCK_SYMBOLS blk = pre ++ s :: post ->
  result (list_block_symbols G what values fi (blk :: sup) pre)
  = Returns tt ->
  let failed :=
    record (SYMBOL_PRINT_NAME (sym arg))
      (what_eqb what all && SYMBOL_IS_ARGUMENT (sym arg))
      (if values_eqb values PRINT_SIMPLE_VALUES
       then Some (type_print G (SYMBOL_TYPE (sym arg))) else None)
      (Some (String.append "<error reading variable: "
               (String.append message ">"))) in
  let entry :=
    if kind_eqb (entry_kind entryarg) print_entry_values_no then []
    else request_events G entryarg what values in
  let before := list_block_symbols G what values fi (blk :: sup) pre in
  let after :=
    bind (list_block_symbols G what values fi (blk :: sup) post)
      (fun _ => if BLOCK_FUNCTION blk then ret tt
                else list_blocks G what values fi sup) in
  list_arg_or_local G arg what values = (failed, Returns tt)
  /\ (forall k : M unit,
        bind (list_symbol G what values fi (blk :: sup) s) (fun _ => k)
        = (read_frame_arg_call sym2 fi :: failed ++ entry ++ trace k,
           result k))
  /\ list_blocks G what values fi (blk :: sup)
     = (trace before
          ++ read_frame_arg_call sym2 fi :: failed ++ entry ++ trace after,
        result after)
  /\ (forall (later : list frame_info) (i high : Z),
        what = arguments ->
        get_frame_block fi = blk :: sup ->
        (i <=? high) || (high =? -1) = true ->
        result after = Returns tt ->
        list_frames_args G values (fi :: later) i high
        = (ui_out_tuple_begin (Some "frame"%string)
             :: ui_out_field_int "level" i
             :: ui_out_list_begin "args"
             :: (trace before
                   ++ read_frame_arg_call sym2 fi
                   :: failed ++ entry ++ trace after)
             ++ [ui_out_list_end; ui_out_tuple_end]
             ++ trace (list_frames_args G values later (i + 1) high),
           result (list_frames_args G values later (i + 1) high))).
Proof.
  intros Hme Hsym Hfetch Herror Hval Hkind Hentry Hsyms Hpre
    failed entry before after.
  assert (Hvalues : values <> PRINT_NO_VALUES)
    by (intros ->; discriminate Hfetch).
  destruct (failed_request_events G arg what values message
              Hvalues Herror Hval Hkind) as [Hpass Hfailed].
  fold failed in Hfailed.
  assert (Hsymbol : list_symbol G what values fi (blk :: sup) s
                    = (read_frame_arg_call sym2 fi :: failed ++ entry,
                       Returns tt)).
  { rewrite (list_symbol_passes G what values fi (blk :: sup) s sym2
               arg entryarg Hme Hsym); try assumption.
    - rewrite Hfetch, Hkind, Hfailed. reflexivity.
    - rewrite Hfetch. reflexivity.
    - rewrite Hpass. apply orb_true_r. }
  assert (Hk : forall k : M unit,
             bind (list_symbol G what values fi (blk :: sup) s) (fun _ => k)
             = (read_frame_arg_call sym2 fi :: failed ++ entry ++ trace k,
                result k)).
  { intros k. rewrite Hsymbol.
    rewrite (bind_returns _ _ tt) by reflexivity.
    cbn [trace fst app]. rewrite <- app_assoc. reflexivity. }
  assert (Hblocks : list_blocks G what values fi (blk :: sup)
     = (trace before
          ++ read_frame_arg_call sym2 fi :: failed ++ entry ++ trace after,
        result after)).
  { cbn [list_blocks]. rewrite Hsyms, list_block_symbols_app.
    cbn [list_block_symbols]. rewrite !bind_bind.
    rewrite (bind_returns _ _ tt) by exact Hpre.
    fold after. rewrite Hk. reflexivity. }
  repeat split.
  - rewrite list_arg_or_local_passes by exact Hpass. rewrite Hfailed.
    reflexivity.
  - exact Hk.
  - exact Hblocks.
  - intros later i high -> Hblock Hwindow Hafter.
    cbn [list_frames_args]. rewrite Hwindow.
    unfold list_args_or_locals, ui_out_tuple, ui_out_list.
    rewrite Hblock, Hblocks, bind_emit. cbn [trace result fst snd].
    rewrite Hafter.
    rewrite (bind_returns _ _ tt) by reflexivity.
    cbn [trace result fst snd name_of_result app]. rewrite <- !app_assoc.
    reflexivity.
Qed.

(** ** The sample debuggee *)

(** [-stack-list-frames 0 1] on the three frames, no filter registered: the
    two innermost frames. *)
Example sample_list_frames :
  mi_cmd_stack_list_frames Sample.gdb 4 1 Sample.stack ["0"; "1"]%string
  = Some ([ui_out_list_begin "stack";
           apply_frame_filter_call Sample.stack
             [PRINT_LEVEL; PRINT_FRAME_INFO] PRINT_NO_VALUES 0 1;
           inbuilt_backtrace;
           frame_record Sample.frame_f; frame_record Sample.frame_main;
           ui_out_list_end],
          Returns tt).
Proof. reflexivity. Qed.

(** [-stack-list-frames] with no range hands the filters 0 and -1. *)
Example sample_list_frames_unbounded :
  mi_cmd_stack_list_frames Sample.gdb_filtered 4 1 Sample.stack []
  = Some ([ui_out_list_begin "stack";
           apply_frame_filter_call Sample.stack
             [PRINT_LEVEL; PRINT_FRAME_INFO] PRINT_NO_VALUES 0 (-1);
           ui_out_list_end],
          Returns tt).
Proof. reflexivity. Qed.

(** [-stack-info-depth] on the three frames. *)
Example sample_depth :
  mi_cmd_stack_info_depth Sample.gdb Sample.stack []
  = ([ui_out_field_int "depth" 3], Returns tt).
Proof. reflexivity. Qed.

(** [-stack-list-variables 2] in [f]: the struct [buf] has a type and no
    value, [x] has its error for a value, [y] is listed twice. *)
Example sample_list_variables :
  fields_named "value"
    (trace (mi_cmd_stack_list_variables Sample.gdb 0 Sample.frame_f
              [Sample.frame_main; Sample.frame_start] ["2"%string]))
  = ["<error reading variable: Cannot access memory at address 0x0>";
     "7"; "5"]%string
  /\ fields_named "name"
       (trace (mi_cmd_stack_list_variables Sample.gdb 0 Sample.frame_f
                 [Sample.frame_main; Sample.frame_start] ["2"%string]))
     = ["buf"; "x"; "y"; "y@entry"]%string
  /\ fields_named "type"
       (trace (mi_cmd_stack_list_variables Sample.gdb 0 Sample.frame_f
                 [Sample.frame_main; Sample.frame_start] ["2"%string]))
     = ["struct s"; "int"; "int"; "int"]%string.
Proof. repeat split. Qed.

(** The request that failed for [x] is listed, and [y] after it. *)
Lemma failed_fetch_witness :
  list_arg_or_local Sample.gdb (fst (Sample.read Sample.sym_x Sample.frame_f))
    arguments PRINT_ALL_VALUES
  = ([ui_out_tuple_begin None; ui_out_field_stream "name" "x";
      ui_out_field_stream "value"
        "<error reading variable: Cannot access memory at address 0x0>";
      ui_out_tuple_end],
     Returns tt)
  /\ fields_named "name"
       (trace (list_blocks Sample.gdb arguments PRINT_ALL_VALUES
                 Sample.frame_f [Sample.f_block; Sample.file_block]))
     = ["x"; "y"; "y@entry"]%string.
Proof.
  pose proof
    (failed_fetch_is_listed_and_the_listing_goes_on Sample.gdb arguments
       PRINT_ALL_VALUES Sample.frame_f Sample.f_block [Sample.file_block]
       [] [Sample.sym_y] Sample.sym_x Sample.sym_x
       (fst (Sample.read Sample.sym_x Sample.frame_f))
       (snd (Sample.read Sample.sym_x Sample.frame_f))
       "Cannot access memory at address 0x0"
       eq_refl eq_refl eq_refl eq_refl eq_refl eq_refl eq_refl eq_refl
       eq_refl) as (Hrequest & _ & Hblocks & _).
  split.
  - exact Hrequest.
  - rewrite Hblocks. reflexivity.
Defined.


(** The window (0, 1) of the three frames. *)
Lemma frame_window_witness :
  stack_list_frames Sample.gdb 0 Sample.stack 0 0 1
  = ([ui_out_list_begin "stack"; inbuilt_backtrace;
      frame_record Sample.frame_f; frame_record Sample.frame_main;
      ui_out_list_end],
     Returns tt)
  /\ map fst (with_levels 0 (frames_between 0 1 Sample.stack)) = [0; 1].
Proof.
  destruct
    (frame_window_lists_low_to_high Sample.gdb 0 0 Sample.stack
       PRINT_ALL_VALUES 0 1)
    as (_ & _ & Hlevels & _ & Hframes & _).
  - lia.
  - lia.
  - reflexivity.
  - vm_compute. right. left. reflexivity.
  - vm_compute. right. left. reflexivity.
  - repeat constructor.
  - split; [exact Hframes | exact Hlevels].
Defined.

(** Frame 3 of a stack of three. *)
Lemma low_bound_witness :
  stack_list_frames Sample.gdb 0 Sample.stack 0 3 5
  = ([], Throws (gdb_error "-stack-list-frames: Not enough frames in stack.")).
Proof.
  apply (low_bound_past_the_stack_is_an_error Sample.gdb 0 0 Sample.stack
           PRINT_NO_VALUES 3 5).
  vm_compute. discriminate.
Defined.

(** Frame 3 of a stack of three, with a filter that would complete. *)
Lemma walk_before_filters_witness :
  existsb is_filter_call
    (trace (stack_list_args Sample.gdb_filtered 1 Sample.stack 0
              PRINT_ALL_VALUES 3 5))
  = false.
Proof.
  apply (frames_are_walked_before_the_filters_are_called Sample.gdb_filtered
           1 0 Sample.stack PRINT_ALL_VALUES 3 5).
  - vm_compute. discriminate.
  - reflexivity.
Defined.

(** The struct [buf] and the scalar [y] under [PRINT_SIMPLE_VALUES]. *)
Lemma simple_values_witness :
  list_symbol Sample.gdb locals PRINT_SIMPLE_VALUES Sample.frame_f
    [Sample.inner_block; Sample.f_block; Sample.file_block] Sample.sym_buf
  = (record "buf" false (Some "struct s"%string) None, Returns tt)
  /\ list_symbol Sample.gdb arguments PRINT_SIMPLE_VALUES Sample.frame_f
       [Sample.f_block; Sample.file_block] Sample.sym_y
     = (read_frame_arg_call Sample.sym_y Sample.frame_f
          :: record "y" false (Some "int"%string) (Some "7"%string)
          ++ record "y@entry" false (Some "int"%string) (Some "5"%string),
        Returns tt).
Proof.
  split.
  - assert (H := simple_values_read_scalars_only Sample.gdb locals
                   Sample.frame_f
                   [Sample.inner_block; Sample.f_block; Sample.file_block]
                   Sample.sym_buf Sample.sym_buf eq_refl eq_refl
                   ltac:(intros n H; discriminate H)).
    exact (proj2 H).
  - assert (H := simple_values_read_scalars_only Sample.gdb arguments
                   Sample.frame_f [Sample.f_block; Sample.file_block]
                   Sample.sym_y Sample.sym_y eq_refl eq_refl
                   ltac:(intros n _; repeat split)).
    exact (proj2 H).
Defined.

(** [y] has a value and an entry value: two records. *)
Lemma entry_kind_witness :
  fields_named "name"
    (trace (list_symbol Sample.gdb arguments PRINT_ALL_VALUES Sample.frame_f
              [Sample.f_block; Sample.file_block] Sample.sym_y))
  = ["y"; "y@entry"]%string.
Proof.
  refine (proj1 (proj2
    (requests_are_listed_by_entry_kind Sample.gdb arguments PRINT_ALL_VALUES
       Sample.frame_f [Sample.f_block; Sample.file_block]
       Sample.sym_y Sample.sym_y
       (fst (Sample.read Sample.sym_y Sample.frame_f))
       (snd (Sample.read Sample.sym_y Sample.frame_f))
       _ _ _ _ _ _))); reflexivity.
Defined.

(** The commands on their argument vectors: a low bound past the stack, with
    and without the opt-out, and a filter that would complete. *)
Example sample_not_enough_frames :
  mi_cmd_stack_list_args Sample.gdb_filtered 1 Sample.stack
    ["1"; "3"; "5"]%string
  = ([], Throws (gdb_error
                   "-stack-list-arguments: Not enough frames in stack."))
  /\ mi_cmd_stack_list_frames Sample.gdb_filtered 4 1 Sample.stack
       ["--no-frame-filters"; "3"; "5"]%string
     = Some ([], Throws (gdb_error
                           "-stack-list-frames: Not enough frames in stack.")).
Proof. split; reflexivity. Qed.

(** [-stack-list-arguments --no-frame-filters 1 0 1]: four arguments, all
    read within the vector. *)
Example sample_list_arguments_opt_out :
  fields_named "name"
    (trace (mi_cmd_stack_list_args Sample.gdb_filtered 1 Sample.stack
              ["--no-frame-filters"; "1"; "0"; "1"]%string))
  = ["x"; "y"; "y@entry"; "argc"]%string
  /\ result (mi_cmd_stack_list_args Sample.gdb_filtered 1 Sample.stack
               ["--no-frame-filters"; "1"; "0"; "1"]%string)
     = Returns tt.
Proof. split; reflexivity. Qed.

(** * Further properties *)

(** ** Depth and windows *)

Lemma count_frames_bounded (fi : list frame_info) (i frame_high : Z) :
  frame_high <> -1 ->
  count_frames fi i frame_high
  = Z.max i (Z.min frame_high (i + Z.of_nat (List.length fi))).
Proof.
  intros Hh. revert i.
  induction fi as [|f prev IH]; intros i; cbn [count_frames List.length].
  - lia.
  - destruct (Z.eqb_spec frame_high (-1)); [contradiction|].
    rewrite orb_false_r. destruct (Z.ltb_spec i frame_high).
    + rewrite IH. lia.
    + lia.
Qed.

Lemma count_frames_unbounded (fi : list frame_info) (i : Z) :
  count_frames fi i (-1) = i + Z.of_nat (List.length fi).
Proof.
  revert i. induction fi as [|f prev IH]; intros i;
    cbn [count_frames List.length].
  - lia.
  - rewrite orb_true_r, IH. lia.
Qed.

(** X1: [-stack-info-depth] with no argument reports the depth of the stack;
    with one argument it reports the depth capped at that number (0 when the
    number is negative, uncapped when it is -1); with more it throws its
    usage error and writes nothing. *)
Theorem info_depth_reports_capped_depth (G : collaborators)
    (stack : list frame_info) (argv : list string) :
  let depth := Z.of_nat (List.length stack) in
  mi_cmd_stack_info_depth G stack argv
  = match argv with
    | [] => ([ui_out_field_int "depth" depth], Returns tt)
    | [a] =>
        ([ui_out_field_int "depth"
            (if atoi G a =? -1 then depth
             else Z.max 0 (Z.min (atoi G a) depth))],
         Returns tt)
    | _ :: _ :: _ =>
        ([], Throws (gdb_error "-stack-info-depth: Usage: [MAX_DEPTH]"))
    end.
Proof.
  intros depth. destruct argv as [|a [|a' rest]].
  - cbn. rewrite count_frames_unbounded. reflexivity.
  - change (mi_cmd_stack_info_depth G stack [a])
      with (bind (ret (atoi G a))
              (fun frame_high =>
                 emit (ui_out_field_int "depth"
                         (count_frames stack 0 frame_high)))).
    rewrite bind_ret. unfold emit.
    destruct (Z.eqb_spec (atoi G a) (-1)) as [E|Hne].
    + rewrite E, count_frames_unbounded. reflexivity.
    + rewrite count_frames_bounded by exact Hne. reflexivity.
  - unfold mi_cmd_stack_info_depth.
    destruct (Z.ltb_spec 1 (Z.of_nat (List.length (a :: a' :: rest))))
      as [_|H]; [reflexivity | cbn [List.length] in H; lia].
Qed.

Lemma position_frame_skips (stack : list frame_info) (frame_low : Z) :
  Z.max 0 frame_low < Z.of_nat (List.length stack) ->
  position_frame stack 0 frame_low
  = (skipn (Z.to_nat frame_low) stack, Z.max 0 frame_low).
Proof.
  intros H. destruct (Z.le_gt_cases frame_low 0) as [Hle|Hgt].
  - rewrite position_frame_here by lia.
    replace (Z.to_nat frame_low) with 0%nat by lia. f_equal. lia.
  - rewrite position_frame_reach by lia. rewrite Z.sub_0_r. f_equal. lia.
Qed.

Lemma print_frames_bounded (fi : list frame_info) (i frame_high : Z) :
  frame_high <> -1 ->
  print_frames fi i frame_high
  = (map frame_record (firstn (Z.to_nat (frame_high - i + 1)) fi),
     Returns tt).
Proof.
  intros Hh. revert i.
  induction fi as [|f prev IH]; intros i; cbn [print_frames].
  - rewrite firstn_nil. reflexivity.
  - destruct (Z.eqb_spec frame_high (-1)); [contradiction|].
    rewrite orb_false_r. destruct (Z.leb_spec i frame_high).
    + rewrite bind_emit, IH.
      replace (Z.to_nat (frame_high - i + 1))
        with (S (Z.to_nat (frame_high - (i + 1) + 1))) by lia.
      reflexivity.
    + replace (Z.to_nat (frame_high - i + 1)) with 0%nat by lia.
      reflexivity.
Qed.

Lemma print_frames_from (stack : list frame_info) (low high : Z) :
  print_frames (skipn (Z.to_nat low) stack) (Z.max 0 low) high
  = (map frame_record (frames_from low high stack), Returns tt).
Proof.
  unfold frames_from. destruct (Z.eqb_spec high (-1)) as [->|Hne].
  - apply print_frames_unbounded.
  - apply print_frames_bounded. exact Hne.
Qed.

(** X2: Whatever the bounds, once the low bound is within the stack the inbuilt
    listing of [-stack-list-frames] returns, having asked for the records of
    the frames from [max 0 low] to [high], or to the outermost frame when
    [high] is -1.  So a high bound past the end of the stack is no error and
    lists up to the outermost frame, and a high bound below the low bound
    gives an empty list, not an error. *)
Theorem list_frames_window_is_clipped (G : collaborators)
    (frame_filters raw_arg : Z) (stack : list frame_info) (low high : Z) :
  Z.max 0 low < Z.of_nat (List.length stack) ->
  In inbuilt_backtrace
     (trace (stack_list_frames G frame_filters stack raw_arg low high)) ->
  stack_list_frames G frame_filters stack raw_arg low high
  = (ui_out_list_begin "stack"
       :: trace (consult_filters G frame_filters raw_arg stack
                   [PRINT_LEVEL; PRINT_FRAME_INFO] PRINT_NO_VALUES
                   (py_frame_low low) high)
       ++ inbuilt_backtrace :: map frame_record (frames_from low high stack)
       ++ [ui_out_list_end],
     Returns tt)
  /\ (Z.of_nat (List.length stack) <= high + 1 ->
      frames_from low high stack = skipn (Z.to_nat low) stack)
  /\ (high < Z.max 0 low -> high <> -1 -> frames_from low high stack = []).
Proof.
  intros Hlow Hran. repeat split.
  - rewrite stack_list_frames_within in * by exact Hlow.
    rewrite (inbuilt_ran _ _ _ _ _ _ _ _ _ _ Hran).
    rewrite position_frame_skips by exact Hlow. cbn [fst].
    rewrite print_frames_from. reflexivity.
  - intros Hhigh. unfold frames_from.
    destruct (Z.eqb_spec high (-1)); [reflexivity|].
    apply firstn_all2. rewrite length_skipn. lia.
  - intros Hbelow Hne. unfold frames_from.
    destruct (Z.eqb_spec high (-1)); [contradiction|].
    replace (Z.to_nat (high - Z.max 0 low + 1)) with 0%nat by lia.
    reflexivity.
Qed.

Lemma list_frames_window_witness :
  stack_list_frames Sample.gdb 0 Sample.stack 0 1 7
  = ([ui_out_list_begin "stack"; inbuilt_backtrace;
      frame_record Sample.frame_main; frame_record Sample.frame_start;
      ui_out_list_end],
     Returns tt)
  /\ stack_list_frames Sample.gdb 0 Sample.stack 0 2 1
     = ([ui_out_list_begin "stack"; inbuilt_backtrace; ui_out_list_end],
        Returns tt).
Proof.
  split.
  - refine (proj1 (list_frames_window_is_clipped Sample.gdb 0 0 Sample.stack
                     1 7 _ _)).
    + reflexivity.
    + vm_compute. right. left. reflexivity.
  - refine (proj1 (list_frames_window_is_clipped Sample.gdb 0 0 Sample.stack
                     2 1 _ _)).
    + reflexivity.
    + vm_compute. right. left. reflexivity.
Defined.

Lemma print_frames_returns (fi : list frame_info) (i frame_high : Z) :
  result (print_frames fi i frame_high) = Returns tt.
Proof.
  revert i. induction fi as [|f prev IH]; intros i; cbn [print_frames].
  - reflexivity.
  - destruct ((i <=? frame_high) || (frame_high =? -1)); [|reflexivity].
    rewrite bind_emit. apply IH.
Qed.

(** X4: [-stack-list-frames] throws "Not enough frames in stack." exactly when
    the low bound (taken as 0 when negative) is at or past the depth that
    [-stack-info-depth] reports, and returns otherwise: with or without
    filters it has no other way to fail. *)
Theorem list_frames_fails_only_past_the_depth (G : collaborators)
    (frame_filters raw_arg : Z) (stack : list frame_info) (low high : Z) :
  count_frames stack 0 (-1) = Z.of_nat (List.length stack)
  /\ result (stack_list_frames G frame_filters stack raw_arg low high)
     = if count_frames stack 0 (-1) <=? Z.max 0 low
       then Throws (gdb_error
                      "-stack-list-frames: Not enough frames in stack.")
       else Returns tt.
Proof.
  rewrite count_frames_unbounded, Z.add_0_l. split; [reflexivity|].
  destruct (Z.leb_spec (Z.of_nat (List.length stack)) (Z.max 0 low))
    as [Hpast|Hwithin].
  - destruct (Z.le_gt_cases low 0) as [Hle|Hgt].
    + assert (stack = []) by (destruct stack; [reflexivity | cbn in Hpast; lia]).
      subst stack. reflexivity.
    + unfold stack_list_frames.
      pose proof (position_frame_past stack 0 low ltac:(lia)) as E.
      destruct (position_frame stack 0 low) as [fi i]. cbn [fst] in E.
      subst fi. reflexivity.
  - rewrite stack_list_frames_within by exact Hwithin.
    unfold ui_out_list. cbn [result snd]. rewrite dispatch_trace.
    cbn [result snd].
    match goal with |- (if ?c then _ else _) = _ => destruct c end;
      [apply print_frames_returns | reflexivity].
Qed.

(** X5: [-stack-info-frame] takes no argument and asks for the record of the
    selected frame exactly as the inbuilt [-stack-list-frames K K] asks for
    the record of frame [K]. *)
Theorem info_frame_is_the_one_frame_window (G : collaborators)
    (stack : list frame_info) (frame : frame_info) (k : nat)
    (argv : list string) :
  nth_error stack k = Some frame ->
  mi_cmd_stack_info_frame frame argv
  = match argv with
    | [] => ([frame_record frame], Returns tt)
    | _ :: _ =>
        ([], Throws (gdb_error "-stack-info-frame: No arguments allowed"))
    end
  /\ stack_list_frames G 0 stack 0 (Z.of_nat k) (Z.of_nat k)
     = (ui_out_list_begin "stack" :: inbuilt_backtrace
          :: trace (mi_cmd_stack_info_frame frame []) ++ [ui_out_list_end],
        Returns tt).
Proof.
  intros Hk. split.
  - unfold mi_cmd_stack_info_frame. destruct argv as [|a rest].
    + reflexivity.
    + destruct (Z.ltb_spec 0 (Z.of_nat (List.length (a :: rest)))) as [_|H];
        [reflexivity | cbn [List.length] in H; lia].
  - assert (Hlen : (k < List.length stack)%nat)
      by (apply nth_error_Some; congruence).
    rewrite stack_list_frames_within by lia.
    rewrite position_frame_skips by lia. cbn [fst].
    rewrite print_frames_from. unfold ui_out_list.
    rewrite dispatch_trace. cbn [trace result fst snd filters_wanted
      inbuilt_wanted truth Z.eqb negb andb orb app].
    unfold frames_from.
    destruct (Z.eqb_spec (Z.of_nat k) (-1)); [lia|].
    replace (Z.to_nat (Z.of_nat k - Z.max 0 (Z.of_nat k) + 1)) with 1%nat
      by lia.
    rewrite Nat2Z.id.
    destruct (skipn k stack) as [|f rest] eqn:E.
    + apply (f_equal (@List.length _)) in E. rewrite length_skipn in E.
      cbn in E. lia.
    + assert (f = frame).
      { pose proof (nth_error_skipn k stack 0%nat) as N.
        rewrite E, Nat.add_0_r, Hk in N. cbn in N. congruence. }
      subst f. reflexivity.
Qed.

Lemma info_frame_witness :
  stack_list_frames Sample.gdb 0 Sample.stack 0 1 1
  = ([ui_out_list_begin "stack"; inbuilt_backtrace;
      frame_record Sample.frame_main; ui_out_list_end],
     Returns tt).
Proof.
  exact (proj2 (info_frame_is_the_one_frame_window Sample.gdb Sample.stack
                  Sample.frame_main 1 [] eq_refl)).
Defined.

Lemma list_frames_args_bounded (G : collaborators) (values : print_values)
    (fi : list frame_info) (i frame_high : Z) :
  frame_high <> -1 ->
  Forall (fun f => result (list_args_or_locals G arguments values f)
                   = Returns tt)
         (firstn (Z.to_nat (frame_high - i + 1)) fi) ->
  list_frames_args G values fi i frame_high
  = (flat_map (frame_args_record G values)
       (with_levels i (firstn (Z.to_nat (frame_high - i + 1)) fi)),
     Returns tt).
Proof.
  intros Hh. revert i.
  induction fi as [|f prev IH]; intros i Hall; cbn [list_frames_args].
  - rewrite firstn_nil. reflexivity.
  - destruct (Z.eqb_spec frame_high (-1)); [contradiction|].
    rewrite orb_false_r. destruct (Z.leb_spec i frame_high).
    + replace (Z.to_nat (frame_high - i + 1))
        with (S (Z.to_nat (frame_high - (i + 1) + 1))) in * by lia.
      cbn [firstn] in Hall. inversion Hall as [|? ? Hf Hrest]; subst.
      rewrite (bind_returns _ _ tt).
      * rewrite IH by assumption.
        cbn [firstn with_levels flat_map trace result fst snd].
        unfold frame_args_record, ui_out_tuple. cbn [fst snd trace].
        rewrite bind_emit. reflexivity.
      * unfold ui_out_tuple. cbn [result snd]. rewrite bind_emit.
        exact Hf.
    + replace (Z.to_nat (frame_high - i + 1)) with 0%nat by lia.
      reflexivity.
Qed.

Lemma list_frames_args_unbounded (G : collaborators) (values : print_values)
    (fi : list frame_info) (i : Z) :
  Forall (fun f => result (list_args_or_locals G arguments values f)
                   = Returns tt) fi ->
  list_frames_args G values fi i (-1)
  = (flat_map (frame_args_record G values) (with_levels i fi), Returns tt).
Proof.
  revert i. induction fi as [|f prev IH]; intros i Hall;
    cbn [list_frames_args].
  - reflexivity.
  - rewrite orb_true_r. inversion Hall as [|? ? Hf Hrest]; subst.
    rewrite (bind_returns _ _ tt).
    + rewrite IH by assumption.
      cbn [with_levels flat_map trace result fst snd].
      unfold frame_args_record, ui_out_tuple. cbn [fst snd trace].
      rewrite bind_emit. reflexivity.
    + unfold ui_out_tuple. cbn [result snd]. rewrite bind_emit. exact Hf.
Qed.

(** X3: Whatever the bounds, once the low bound is within the stack the inbuilt
    listing of [-stack-list-arguments] writes one "frame" tuple for each
    frame from [max 0 low] to [high] (to the outermost frame when [high] is
    -1 or past the end), numbered from [max 0 low] on, and returns, as long
    as the variable listing of each of these frames returns. *)
Theorem list_args_window_is_clipped (G : collaborators)
    (frame_filters raw_arg : Z) (stack : list frame_info)
    (values : print_values) (low high : Z) :
  Z.max 0 low < Z.of_nat (List.length stack) ->
  In inbuilt_backtrace
     (trace (stack_list_args G frame_filters stack raw_arg values low high)) ->
  Forall (fun f => result (list_args_or_locals G arguments values f)
                   = Returns tt)
         (frames_from low high stack) ->
  stack_list_args G frame_filters stack raw_arg values low high
  = (ui_out_list_begin "stack-args"
       :: trace (consult_filters G frame_filters raw_arg stack
                   [PRINT_LEVEL; PRINT_ARGS] values (py_frame_low low) high)
       ++ inbuilt_backtrace
       :: flat_map (frame_args_record G values)
            (with_levels (Z.max 0 low) (frames_from low high stack))
       ++ [ui_out_list_end],
     Returns tt).
Proof.
  intros Hlow Hran Hall.
  rewrite stack_list_args_within in * by exact Hlow.
  rewrite (inbuilt_ran _ _ _ _ _ _ _ _ _ _ Hran).
  rewrite position_frame_skips by exact Hlow. cbn [fst].
  unfold frames_from in *. destruct (Z.eqb_spec high (-1)) as [->|Hne].
  - rewrite list_frames_args_unbounded by exact Hall. reflexivity.
  - rewrite list_frames_args_bounded by assumption. reflexivity.
Qed.

Lemma list_args_window_witness :
  fields_named "name"
    (trace (stack_list_args Sample.gdb 0 Sample.stack 0 PRINT_NO_VALUES
              1 (-1)))
  = ["argc"%string]
  /\ result (stack_list_args Sample.gdb 0 Sample.stack 0 PRINT_NO_VALUES
               1 (-1))
     = Returns tt.
Proof.
  assert (H : stack_list_args Sample.gdb 0 Sample.stack 0 PRINT_NO_VALUES
                1 (-1)
              = (ui_out_list_begin "stack-args"
                   :: [] ++ inbuilt_backtrace
                   :: flat_map (frame_args_record Sample.gdb PRINT_NO_VALUES)
                        [(1, Sample.frame_main); (2, Sample.frame_start)]
                   ++ [ui_out_list_end],
                 Returns tt)).
  { apply (list_args_window_is_clipped Sample.gdb 0 0 Sample.stack
             PRINT_NO_VALUES 1 (-1)).
    - reflexivity.
    - vm_compute. right. left. reflexivity.
    - repeat constructor. }
  rewrite H. split; reflexivity.
Defined.

(** ** The frame filters *)

Lemma filter_calls_none (t : list event) :
  Forall (fun e => is_filter_call e = false) t ->
  filter is_filter_call t = []
  /\ filter (fun e => negb (is_filter_call e)) t = t.
Proof.
  induction 1 as [|e t He _ [IH1 IH2]]; cbn [filter].
  - split; reflexivity.
  - rewrite He. cbn [negb]. rewrite IH1, IH2. split; reflexivity.
Qed.

Lemma listing_calls_no_filter (G : collaborators) (what : what_to_list)
    (values : print_values) (fi : frame_info) :
  Forall (fun e => is_filter_call e = false)
    (trace (list_args_or_locals G what values fi)).
Proof. apply list_args_or_locals_quiet. intros e He. exact He. Qed.

Lemma frames_args_call_no_filter (G : collaborators) (values : print_values)
    (fi : list frame_info) (i frame_high : Z) :
  Forall (fun e => is_filter_call e = false)
    (trace (list_frames_args G values fi i frame_high)).
Proof. apply list_frames_args_quiet. intros e He. exact He. Qed.

Lemma print_frames_call_no_filter (fi : list frame_info) (i frame_high : Z) :
  Forall (fun e => is_filter_call e = false)
    (trace (print_frames fi i frame_high)).
Proof. apply print_frames_quiet. intros e He. exact He. Qed.

(** The filter calls in the trace of a dispatch whose inbuilt part makes
    none. *)
Lemma dispatch_filter_calls (G : collaborators) (frame_filters raw_arg : Z)
    (frame : list frame_info) (flags : list frame_filter_flag)
    (values : print_values) (low high : Z) (inbuilt : M unit) :
  Forall (fun e => is_filter_call e = false) (trace inbuilt) ->
  filter is_filter_call
    (trace (bind (consult_filters G frame_filters raw_arg frame flags values
                    low high)
              (fun result =>
                 if inbuilt_wanted frame_filters raw_arg result
                 then bind (emit inbuilt_backtrace) (fun _ => inbuilt)
                 else ret tt)))
  = if filters_wanted frame_filters raw_arg
    then [apply_frame_filter_call frame flags values low high] else [].
Proof.
  intros Hin. rewrite dispatch_trace. cbn [trace fst].
  rewrite filter_app.
  assert (E : filter is_filter_call
                (if inbuilt_wanted frame_filters raw_arg
                      (if filters_wanted frame_filters raw_arg
                       then apply_frame_filter G frame flags values low high
                       else PY_BT_ERROR)
                 then inbuilt_backtrace :: trace inbuilt else []) = []).
  { match goal with |- filter _ (if ?c then _ else _) = _ => destruct c end;
      [|reflexivity].
    cbn [filter is_filter_call]. apply filter_calls_none. exact Hin. }
  rewrite E, app_nil_r.
  destruct (filters_wanted frame_filters raw_arg); reflexivity.
Qed.

Lemma filter_list_trace (name : string) (body : list event) :
  filter is_filter_call (ui_out_list_begin name :: body ++ [ui_out_list_end])
  = filter is_filter_call body.
Proof.
  cbn [filter is_filter_call]. rewrite filter_app. cbn [filter is_filter_call].
  apply app_nil_r.
Qed.

(** X6: Each listing command calls the frame filters at most once: exactly once,
    with its own flags and bounds, when [frame_filters] is set and
    [--no-frame-filters] is not given (and, for frames and arguments, the
    low bound is within the stack), and never otherwise.  The inbuilt
    listing itself never calls them.  The commands for locals and variables
    always hand the filters the bounds 0 and 0. *)
Theorem filters_are_called_at_most_once (G : collaborators)
    (frame_filters raw_arg : Z) (stack : list frame_info)
    (frame : frame_info) (older : list frame_info)
    (values : print_values) (low high : Z) :
  let within := Z.max 0 low <? Z.of_nat (List.length stack) in
  filter is_filter_call
    (trace (stack_list_frames G frame_filters stack raw_arg low high))
  = (if within && filters_wanted frame_filters raw_arg
     then [apply_frame_filter_call stack [PRINT_LEVEL; PRINT_FRAME_INFO]
             PRINT_NO_VALUES (py_frame_low low) high]
     else [])
  /\ filter is_filter_call
       (trace (stack_list_args G frame_filters stack raw_arg values low high))
     = (if within && filters_wanted frame_filters raw_arg
        then [apply_frame_filter_call stack [PRINT_LEVEL; PRINT_ARGS]
                values (py_frame_low low) high]
        else [])
  /\ filter is_filter_call
       (trace (stack_list_locals G frame_filters frame older raw_arg values))
     = (if filters_wanted frame_filters raw_arg
        then [apply_frame_filter_call (frame :: older)
                [PRINT_LEVEL; PRINT_LOCALS] values 0 0]
        else [])
  /\ filter is_filter_call
       (trace (stack_list_variables G frame_filters frame older raw_arg
                 values))
     = (if filters_wanted frame_filters raw_arg
        then [apply_frame_filter_call (frame :: older)
                [PRINT_LEVEL; PRINT_ARGS; PRINT_LOCALS] values 0 0]
        else []).
Proof.
  intros within. subst within.
  assert (Hpast : Z.of_nat (List.length stack) <= Z.max 0 low ->
                  fst (position_frame stack 0 low) = []).
  { intros H. destruct (Z.le_gt_cases low 0).
    - destruct stack; [reflexivity | cbn [List.length] in H; lia].
    - apply position_frame_past. lia. }
  repeat split.
  - destruct (Z.ltb_spec (Z.max 0 low) (Z.of_nat (List.length stack)))
      as [Hin|Hout]; cbn [andb].
    + rewrite stack_list_frames_within by exact Hin.
      unfold ui_out_list. cbn [trace fst]. rewrite filter_list_trace.
      apply dispatch_filter_calls, print_frames_call_no_filter.
    + unfold stack_list_frames. specialize (Hpast Hout).
      destruct (position_frame stack 0 low) as [fi i]. cbn [fst] in Hpast.
      subst fi. reflexivity.
  - destruct (Z.ltb_spec (Z.max 0 low) (Z.of_nat (List.length stack)))
      as [Hin|Hout]; cbn [andb].
    + rewrite stack_list_args_within by exact Hin.
      unfold ui_out_list. cbn [trace fst]. rewrite filter_list_trace.
      apply dispatch_filter_calls, frames_args_call_no_filter.
    + unfold stack_list_args. specialize (Hpast Hout).
      destruct (position_frame stack 0 low) as [fi i]. cbn [fst] in Hpast.
      subst fi. reflexivity.
  - apply dispatch_filter_calls, listing_calls_no_filter.
  - apply dispatch_filter_calls, listing_calls_no_filter.
Qed.

Lemma truth_nonzero (z : Z) : z <> 0 -> truth z = true.
Proof. unfold truth. destruct (Z.eqb_spec z 0); [contradiction | reflexivity]. Qed.

(** X7: With [--no-frame-filters] given, each of the four commands does exactly
    what it does when the frame filters were never enabled: [frame_filters]
    has no effect on it. *)
Theorem opt_out_is_the_unfiltered_command (G : collaborators)
    (frame_filters raw_arg : Z) (stack : list frame_info)
    (frame : frame_info) (older : list frame_info)
    (values : print_values) (low high : Z) :
  raw_arg <> 0 ->
  stack_list_frames G frame_filters stack raw_arg low high
  = stack_list_frames G 0 stack 0 low high
  /\ stack_list_args G frame_filters stack raw_arg values low high
     = stack_list_args G 0 stack 0 values low high
  /\ stack_list_locals G frame_filters frame older raw_arg values
     = stack_list_locals G 0 frame older 0 values
  /\ stack_list_variables G frame_filters frame older raw_arg values
     = stack_list_variables G 0 frame older 0 values.
Proof.
  intros Hraw. apply truth_nonzero in Hraw.
  unfold stack_list_frames, stack_list_args, stack_list_locals,
    stack_list_variables, consult_filters, filters_wanted, inbuilt_wanted.
  rewrite Hraw. cbn [negb andb orb truth Z.eqb].
  rewrite !orb_true_r. repeat split.
Qed.

Lemma opt_out_witness :
  stack_list_locals Sample.gdb_filtered 1 Sample.frame_f [] 1 PRINT_NO_VALUES
  = stack_list_locals Sample.gdb_filtered 0 Sample.frame_f [] 0
      PRINT_NO_VALUES.
Proof.
  refine (proj1 (proj2 (proj2
    (opt_out_is_the_unfiltered_command Sample.gdb_filtered 1 1 Sample.stack
       Sample.frame_f [] PRINT_NO_VALUES 0 0 _)))).
  discriminate.
Defined.

(** X8: When no frame filter is registered, a command run with the filters
    enabled calls them and then does exactly what it does with the filters
    never enabled: taking the call out of its trace leaves the trace of the
    unfiltered command, and the two outcomes are the same. *)
Theorem no_filters_falls_back_to_the_unfiltered_command (G : collaborators)
    (frame_filters : Z) (stack : list frame_info)
    (frame : frame_info) (older : list frame_info)
    (values : print_values) (low high : Z) :
  frame_filters <> 0 ->
  (forall fr flags v l h,
      apply_frame_filter G fr flags v l h = PY_BT_NO_FILTERS) ->
  let without_call := filter (fun e => negb (is_filter_call e)) in
  (without_call
     (trace (stack_list_frames G frame_filters stack 0 low high))
   = trace (stack_list_frames G 0 stack 0 low high)
   /\ result (stack_list_frames G frame_filters stack 0 low high)
      = result (stack_list_frames G 0 stack 0 low high))
  /\ (without_call
        (trace (stack_list_args G frame_filters stack 0 values low high))
      = trace (stack_list_args G 0 stack 0 values low high)
      /\ result (stack_list_args G frame_filters stack 0 values low high)
         = result (stack_list_args G 0 stack 0 values low high))
  /\ stack_list_locals G frame_filters frame older 0 values
     = (apply_frame_filter_call (frame :: older) [PRINT_LEVEL; PRINT_LOCALS]
          values 0 0
          :: trace (stack_list_locals G 0 frame older 0 values),
        result (stack_list_locals G 0 frame older 0 values))
  /\ stack_list_variables G frame_filters frame older 0 values
     = (apply_frame_filter_call (frame :: older)
          [PRINT_LEVEL; PRINT_ARGS; PRINT_LOCALS] values 0 0
          :: trace (stack_list_variables G 0 frame older 0 values),
        result (stack_list_variables G 0 frame older 0 values)).
Proof.
  intros Hff Hnone without_call. subst without_call.
  apply truth_nonzero in Hff.
  assert (Hwanted : filters_wanted frame_filters 0 = true)
    by (unfold filters_wanted; rewrite Hff; reflexivity).
  assert (Hkeep : forall (name : string) (c : event) (inner : list event),
            is_filter_call c = true ->
            Forall (fun e => is_filter_call e = false) inner ->
            filter (fun e => negb (is_filter_call e))
              (ui_out_list_begin name
                 :: ([c] ++ inbuilt_backtrace :: inner) ++ [ui_out_list_end])
            = ui_out_list_begin name
                :: ([] ++ inbuilt_backtrace :: inner) ++ [ui_out_list_end]).
  { intros name c inner Hc Hinner.
    cbn [filter is_filter_call negb app]. rewrite Hc. cbn [negb].
    rewrite filter_app. cbn [filter is_filter_call negb].
    rewrite (proj2 (filter_calls_none inner Hinner)). reflexivity. }
  assert (Hno : inbuilt_wanted frame_filters 0 PY_BT_NO_FILTERS = true)
    by (unfold inbuilt_wanted; apply orb_true_r).
  assert (Hoff : forall s, inbuilt_wanted 0 0 s = true) by reflexivity.
  repeat split.
  - unfold stack_list_frames.
    destruct (position_frame stack 0 low) as [[|f prev] i]; [reflexivity|].
    unfold ui_out_list. rewrite !dispatch_trace, Hwanted, Hnone, Hno, !Hoff.
    cbn [trace fst filters_wanted inbuilt_wanted truth Z.eqb negb andb orb
         status_eqb].
    rewrite ?orb_true_r.
    apply Hkeep; [reflexivity | apply print_frames_call_no_filter].
  - unfold stack_list_frames.
    destruct (position_frame stack 0 low) as [[|f prev] i]; [reflexivity|].
    unfold ui_out_list. rewrite !dispatch_trace, Hwanted, Hnone, Hno, !Hoff.
    cbn [result snd filters_wanted inbuilt_wanted truth Z.eqb negb andb orb
         status_eqb].
    rewrite ?orb_true_r. reflexivity.
  - unfold stack_list_args.
    destruct (position_frame stack 0 low) as [[|f prev] i]; [reflexivity|].
    unfold ui_out_list. rewrite !dispatch_trace, Hwanted, Hnone, Hno, !Hoff.
    cbn [trace fst filters_wanted inbuilt_wanted truth Z.eqb negb andb orb
         status_eqb].
    rewrite ?orb_true_r.
    apply Hkeep; [reflexivity | apply frames_args_call_no_filter].
  - unfold stack_list_args.
    destruct (position_frame stack 0 low) as [[|f prev] i]; [reflexivity|].
    unfold ui_out_list. rewrite !dispatch_trace, Hwanted, Hnone, Hno, !Hoff.
    cbn [result snd filters_wanted inbuilt_wanted truth Z.eqb negb andb orb
         status_eqb].
    rewrite ?orb_true_r. reflexivity.
  - unfold stack_list_locals. rewrite !dispatch_trace, Hwanted, Hnone, Hno, !Hoff.
    cbn [trace result fst snd filters_wanted inbuilt_wanted truth Z.eqb negb
         andb orb status_eqb app].
    rewrite ?orb_true_r. reflexivity.
  - unfold stack_list_variables. rewrite !dispatch_trace, Hwanted, Hnone, Hno, !Hoff.
    cbn [trace result fst snd filters_wanted inbuilt_wanted truth Z.eqb negb
         andb orb status_eqb app].
    rewrite ?orb_true_r. reflexivity.
Qed.

Lemma fallback_witness :
  stack_list_locals Sample.gdb 1 Sample.frame_f [] 0 PRINT_NO_VALUES
  = (apply_frame_filter_call [Sample.frame_f] [PRINT_LEVEL; PRINT_LOCALS]
       PRINT_NO_VALUES 0 0
       :: trace (stack_list_locals Sample.gdb 0 Sample.frame_f [] 0
                   PRINT_NO_VALUES),
     result (stack_list_locals Sample.gdb 0 Sample.frame_f [] 0
               PRINT_NO_VALUES)).
Proof.
  refine (proj1 (proj2 (proj2
    (no_filters_falls_back_to_the_unfiltered_command Sample.gdb 1
       Sample.stack Sample.frame_f [] PRINT_NO_VALUES 0 0 _ _)))).
  - discriminate.
  - intros. reflexivity.
Defined.

(** ** The argument vectors *)

Lemma argv_read_nth (argv : list string) (k : Z) (a : string) :
  0 <= k -> nth_error argv (Z.to_nat k) = Some a -> argv_read argv k = ret a.
Proof.
  intros Hk Hnth. unfold argv_read. rewrite Hnth.
  assert (Hlt : (Z.to_nat k < List.length argv)%nat)
    by (apply nth_error_Some; congruence).
  destruct (Z.leb_spec 0 k); [|lia].
  destruct (Z.ltb_spec k (Z.of_nat (List.length argv))); [reflexivity | lia].
Qed.

Lemma one_value_usage_error_long (n : nat) (raw_arg : Z) :
  one_value_usage_error (Z.of_nat (S (S (S n)))) raw_arg = true.
Proof.
  unfold one_value_usage_error.
  destruct (Z.ltb_spec 2 (Z.of_nat (S (S (S n))))); [|lia].
  rewrite orb_true_r. reflexivity.
Qed.

(** X9: [-stack-list-locals] and [-stack-list-variables] take exactly
    [PRINT_VALUES] or [--no-frame-filters PRINT_VALUES]: on these they parse
    the [PRINT_VALUES] argument and go on with [raw_arg] 0 or 1; on any other
    vector (none, the option alone, two arguments of which the first is not
    the option, three or more) they throw their usage error with nothing
    written.  No vector makes them read past its end. *)
Theorem locals_and_variables_take_one_value (G : collaborators)
    (frame_filters : Z) (frame : frame_info) (older : list frame_info)
    (argv : list string) :
  mi_cmd_stack_list_locals G frame_filters frame older argv
  = match argv with
    | [v] =>
        if String.eqb v "--no-frame-filters"
        then throw (gdb_error
          "-stack-list-locals: Usage: [--no-frame-filters] PRINT_VALUES")
        else bind (lift (mi_parse_print_values G v))
               (stack_list_locals G frame_filters frame older 0)
    | [o; v] =>
        if String.eqb o "--no-frame-filters"
        then bind (lift (mi_parse_print_values G v))
               (stack_list_locals G frame_filters frame older 1)
        else throw (gdb_error
          "-stack-list-locals: Usage: [--no-frame-filters] PRINT_VALUES")
    | _ => throw (gdb_error
          "-stack-list-locals: Usage: [--no-frame-filters] PRINT_VALUES")
    end
  /\ mi_cmd_stack_list_variables G frame_filters frame older argv
     = match argv with
       | [v] =>
           if String.eqb v "--no-frame-filters"
           then throw (gdb_error
             "-stack-list-variables: Usage: [--no-frame-filters] PRINT_VALUES")
           else bind (lift (mi_parse_print_values G v))
                  (stack_list_variables G frame_filters frame older 0)
       | [o; v] =>
           if String.eqb o "--no-frame-filters"
           then bind (lift (mi_parse_print_values G v))
                  (stack_list_variables G frame_filters frame older 1)
           else throw (gdb_error
             "-stack-list-variables: Usage: [--no-frame-filters] PRINT_VALUES")
       | _ => throw (gdb_error
             "-stack-list-variables: Usage: [--no-frame-filters] PRINT_VALUES")
       end.
Proof.
  unfold mi_cmd_stack_list_locals, mi_cmd_stack_list_variables.
  destruct argv as [|a [|b [|c rest]]].
  - split; reflexivity.
  - unfold raw_arg_of. cbn [List.length Z.of_nat Z.ltb Z.compare nth_error
      parse_no_frames_option Pos.of_succ_nat].
    destruct (String.eqb a "--no-frame-filters"); split;
      try (rewrite (argv_read_nth _ 0 a) by (lia || reflexivity));
      rewrite ?bind_ret; reflexivity.
  - unfold raw_arg_of. cbn [List.length Z.of_nat Z.ltb Z.compare nth_error
      parse_no_frames_option Pos.of_succ_nat Pos.succ].
    destruct (String.eqb a "--no-frame-filters"); split;
      try (rewrite (argv_read_nth _ 1 b) by (lia || reflexivity));
      rewrite ?bind_ret; reflexivity.
  - cbn [List.length]. rewrite one_value_usage_error_long.
    split; reflexivity.
Qed.

Lemma list_args_usage_error_long (n : nat) :
  list_args_usage_error (Z.of_nat (S (S (S (S n))))) 0 = true
  /\ list_args_usage_error (Z.of_nat (S (S (S (S n))))) 1 = false
  /\ (3 <=? Z.of_nat (S (S (S (S n))))) = true.
Proof.
  unfold list_args_usage_error, truth. cbn [Z.eqb negb andb].
  destruct (Z.ltb_spec (Z.of_nat (S (S (S (S n))))) 1); [lia|].
  destruct (Z.ltb_spec 3 (Z.of_nat (S (S (S (S n)))))); [|lia].
  destruct (Z.eqb_spec (Z.of_nat (S (S (S (S n))))) 2); [lia|].
  destruct (Z.leb_spec 3 (Z.of_nat (S (S (S (S n)))))); [|lia].
  repeat split.
Qed.

(** X10: What [-stack-list-arguments] makes of each shape of its vector.  Without
    the option it takes [PRINT_VALUES] alone (the whole stack) or with the
    two bounds, and throws its usage error on none, two, or more than three
    arguments.  With [--no-frame-filters] first it takes [PRINT_VALUES]
    alone or with the two bounds, and then ignores anything that follows the
    bounds.  The option alone and the option with two arguments pass the
    usage check and end in a read past the vector. *)
Theorem list_args_argument_shapes (G : collaborators) (frame_filters : Z)
    (stack : list frame_info) (argv : list string) :
  let usage := gdb_error
    "-stack-list-arguments: Usage: [--no-frame-filters] PRINT_VALUES [FRAME_LOW FRAME_HIGH]" in
  let run raw_arg v low high :=
    bind (lift (mi_parse_print_values G v))
      (fun values =>
         stack_list_args G frame_filters stack raw_arg values low high) in
  mi_cmd_stack_list_args G frame_filters stack argv
  = match argv with
    | [] => throw usage
    | [v] =>
        if String.eqb v "--no-frame-filters" then throw (argv_overrun 1)
        else run 0 v (-1) (-1)
    | [o; v] =>
        if String.eqb o "--no-frame-filters" then run 1 v (-1) (-1)
        else throw usage
    | [v; low; high] =>
        if String.eqb v "--no-frame-filters" then throw (argv_overrun 3)
        else run 0 v (atoi G low) (atoi G high)
    | o :: v :: low :: high :: _ =>
        if String.eqb o "--no-frame-filters"
        then run 1 v (atoi G low) (atoi G high)
        else throw usage
    end.
Proof.
  intros usage run. subst usage run. unfold mi_cmd_stack_list_args.
  destruct argv as [|a [|b [|c [|d rest]]]].
  - reflexivity.
  - unfold raw_arg_of. cbn [List.length Z.of_nat Z.ltb Z.compare nth_error
      parse_no_frames_option Pos.of_succ_nat].
    change (3 <=? 1) with false.
    destruct (String.eqb a "--no-frame-filters"); cbv iota;
      try (rewrite (argv_read_nth _ 0 a) by (lia || reflexivity));
      rewrite ?bind_ret; reflexivity.
  - unfold raw_arg_of. cbn [List.length Z.of_nat Z.ltb Z.compare nth_error
      parse_no_frames_option Pos.of_succ_nat Pos.succ].
    change (3 <=? 2) with false.
    destruct (String.eqb a "--no-frame-filters"); cbv iota;
      try (rewrite (argv_read_nth _ 1 b) by (lia || reflexivity));
      rewrite ?bind_ret; reflexivity.
  - unfold raw_arg_of. cbn [List.length Z.of_nat Z.ltb Z.compare nth_error
      parse_no_frames_option Pos.of_succ_nat Pos.succ].
    change (3 <=? 3) with true.
    destruct (String.eqb a "--no-frame-filters"); cbv iota; [reflexivity|].
    rewrite (argv_read_nth _ (1 + 0) b), (argv_read_nth _ (2 + 0) c),
      (argv_read_nth _ 0 a) by (lia || reflexivity).
    rewrite !bind_ret. reflexivity.
  - destruct (list_args_usage_error_long (List.length rest))
      as (Hplain & Hopt & Hthree).
    unfold raw_arg_of. cbn [List.length nth_error parse_no_frames_option].
    destruct (Z.ltb_spec 0 (Z.of_nat (S (S (S (S (List.length rest)))))));
      [|lia].
    destruct (String.eqb a "--no-frame-filters").
    + rewrite Hopt, Hthree. cbv iota.
      rewrite (argv_read_nth _ (1 + 1) c), (argv_read_nth _ (2 + 1) d),
        (argv_read_nth _ 1 b) by (lia || reflexivity).
      rewrite !bind_ret. reflexivity.
    + rewrite Hplain. reflexivity.
Qed.

Lemma list_frames_getopt_more_fuel (G : collaborators) (fuel extra : nat)
    (argv : list string) (oind raw_arg : Z) (r : outcome (Z * Z)) :
  list_frames_getopt G fuel argv oind raw_arg = Some r ->
  list_frames_getopt G (fuel + extra) argv oind raw_arg = Some r.
Proof.
  revert oind raw_arg.
  induction fuel as [|fuel IH]; intros oind raw_arg H;
    cbn [list_frames_getopt Nat.add] in *.
  - discriminate.
  - destruct (mi_getopt G "-stack-list-frames" argv list_frames_opts oind)
      as [[opt oind']|e]; [|exact H].
    destruct (opt <? 0); [exact H | apply IH; exact H].
Qed.

(** X11: Once the option loop of [-stack-list-frames] ends with [oind] at or
    after the start of the vector, the command takes either nothing more
    (the whole stack, both bounds -1) or exactly two more arguments, which
    it reads at [oind] and [oind + 1], within the vector; any other count is
    its usage error.  More fuel for the loop changes nothing. *)
Theorem list_frames_reads_its_bounds_after_the_options (G : collaborators)
    (fuel : nat) (frame_filters : Z) (stack : list frame_info)
    (argv : list string) (raw_arg oind : Z) :
  list_frames_getopt G fuel argv 0 0 = Some (Returns (raw_arg, oind)) ->
  0 <= oind ->
  let argc := Z.of_nat (List.length argv) in
  let command :=
    if argc - oind =? 2
    then stack_list_frames G frame_filters stack raw_arg
           (atoi G (nth (Z.to_nat oind) argv ""%string))
           (atoi G (nth (Z.to_nat (1 + oind)) argv ""%string))
    else if argc - oind =? 0
    then stack_list_frames G frame_filters stack raw_arg (-1) (-1)
    else throw (gdb_error
      "-stack-list-frames: Usage: [--no-frame-filters] [FRAME_LOW FRAME_HIGH]")
  in
  (argc - oind = 2 ->
   (Z.to_nat oind < List.length argv)%nat
   /\ (Z.to_nat (1 + oind) < List.length argv)%nat)
  /\ forall extra : nat,
       mi_cmd_stack_list_frames G (fuel + extra) frame_filters stack argv
       = Some command.
Proof.
  intros Hopt Hoind argc command. split; [subst argc; lia|].
  intros extra. unfold mi_cmd_stack_list_frames.
  rewrite (list_frames_getopt_more_fuel G fuel extra argv 0 0 _ Hopt).
  fold argc. subst command. f_equal.
  destruct (Z.eqb_spec (argc - oind) 2) as [Htwo|Hnot2].
  - destruct (Z.eqb_spec (argc - oind) 0); [lia|]. cbn [negb andb].
    assert (H0 : (Z.to_nat oind < List.length argv)%nat) by (subst argc; lia).
    assert (H1 : (Z.to_nat (1 + oind) < List.length argv)%nat)
      by (subst argc; lia).
    rewrite (argv_read_nth argv (0 + oind)
               (nth (Z.to_nat oind) argv ""%string)).
    2: lia.
    2:{ rewrite Z.add_0_l. apply nth_error_nth'. exact H0. }
    rewrite bind_ret.
    rewrite (argv_read_nth argv (1 + oind)
               (nth (Z.to_nat (1 + oind)) argv ""%string)).
    2: lia.
    2:{ apply nth_error_nth'. exact H1. }
    rewrite !bind_ret. reflexivity.
  - destruct (Z.eqb_spec (argc - oind) 0).
    + cbn [negb andb]. rewrite bind_ret. reflexivity.
    + reflexivity.
Qed.

Lemma list_frames_bounds_witness :
  mi_cmd_stack_list_frames Sample.gdb 2 1 Sample.stack
    ["--no-frame-filters"; "0"; "1"]%string
  = Some (stack_list_frames Sample.gdb 1 Sample.stack 1 0 1).
Proof.
  exact (proj2 (list_frames_reads_its_bounds_after_the_options Sample.gdb 2 1
                  Sample.stack ["--no-frame-filters"; "0"; "1"]%string 1 1
                  eq_refl ltac:(lia)) 0%nat).
Defined.

(** ** One request, again *)

(** X12: A request is listed whole or not at all: when it passes the three
    assertions [list_arg_or_local] returns, having written one record with
    one "name" field; when it fails one (it carries both a value and an
    error, a value under [PRINT_NO_VALUES], neither under
    [PRINT_ALL_VALUES], or an entry kind the file does not list) the call
    throws an internal error before anything is written. *)
Theorem request_is_listed_whole_or_not_at_all (G : collaborators)
    (arg : frame_arg) (what : what_to_list) (values : print_values) :
  (if frame_arg_asserts values arg
   then list_arg_or_local G arg what values
        = (request_events G arg what values, Returns tt)
        /\ fields_named "name" (request_events G arg what values)
           = [request_name arg]
   else exists text,
        list_arg_or_local G arg what values
        = ([], Throws (internal_error text)))
  /\ (is_some (val arg) && is_some (error arg) = true ->
      frame_arg_asserts values arg = false)
  /\ (entry_kind arg = print_entry_values_compact ->
      frame_arg_asserts values arg = false).
Proof.
  repeat split.
  - destruct (frame_arg_asserts values arg) eqn:H.
    + split; [apply list_arg_or_local_passes; exact H
             | apply request_events_name].
    + apply list_arg_or_local_fails. exact H.
  - unfold frame_arg_asserts, assert_val_xor_error.
    destruct (is_some (val arg)), (is_some (error arg)); intros H;
      try discriminate H. reflexivity.
  - unfold frame_arg_asserts, assert_entry_kind. intros ->.
    cbn [kind_eqb andb orb]. apply andb_false_r.
Qed.

(** X13: A value whose printing throws is listed all the same: the request's
    record is written and its value field holds what [common_val_print] had
    printed before it threw, followed by the message between
    "<error reading variable: " and ">"; when the printing returns, the
    value field is what was printed. *)
Theorem failed_print_is_listed_after_what_was_printed (G : collaborators)
    (arg : frame_arg) (what : what_to_list) (values : print_values)
    (v : value) (printed : string) (except : option string) :
  val arg = Some v ->
  error arg = None ->
  common_val_print G v (SYMBOL_LANGUAGE (sym arg)) = (printed, except) ->
  values <> PRINT_NO_VALUES ->
  assert_entry_kind arg = true ->
  list_arg_or_local G arg what values
  = (record (request_name arg)
       (what_eqb what all && SYMBOL_IS_ARGUMENT (sym arg))
       (if values_eqb values PRINT_SIMPLE_VALUES
        then Some (type_print G (SYMBOL_TYPE (sym arg))) else None)
       (Some (match except with
              | Some message =>
                  String.append printed
                    (String.append "<error reading variable: "
                       (String.append message ">"))
              | None => printed
              end)),
     Returns tt).
Proof.
  intros Hval Herror Hprint Hvalues Hkind.
  rewrite list_arg_or_local_passes.
  - unfold request_events, value_text.
    rewrite Hval, Herror, Hprint. cbn [is_some orb].
    destruct values; [contradiction | |]; destruct except; reflexivity.
  - unfold frame_arg_asserts, assert_val_xor_error, assert_values.
    rewrite Hval, Herror, Hkind.
    destruct values; [contradiction | |]; reflexivity.
Qed.

Lemma failed_print_witness :
  fields_named "value"
    (trace (list_arg_or_local gdb_with_failing_printer
              (fst (Sample.read Sample.sym_buf Sample.frame_f))
              locals PRINT_ALL_VALUES))
  = ["{a = 1, b = <error reading variable: Cannot access memory at address 0x8>"%string].
Proof.
  rewrite (failed_print_is_listed_after_what_was_printed
             gdb_with_failing_printer
             (fst (Sample.read Sample.sym_buf Sample.frame_f))
             locals PRINT_ALL_VALUES 1 "{a = 1, b = "
             (Some "Cannot access memory at address 0x8"%string)
             eq_refl eq_refl eq_refl ltac:(discriminate) eq_refl).
  reflexivity.
Defined.

(** ** The walk over the blocks *)

Lemma locals_are_no_arguments (s : symbol) :
  print_me locals s = true -> SYMBOL_IS_ARGUMENT s = false.
Proof.
  unfold print_me.
  destruct (SYMBOL_CLASS s), (SYMBOL_IS_ARGUMENT s); intros H;
    (discriminate H || reflexivity).
Qed.

Lemma list_symbol_local_name (G : collaborators) (fi : frame_info)
    (b : list block) (s : symbol) :
  list_symbol G locals PRINT_NO_VALUES fi b s
  = ((if print_me locals s then [name_field s] else []), Returns tt).
Proof.
  unfold list_symbol. destruct (print_me locals s) eqn:Hme; [|reflexivity].
  unfold canonical_symbol.
  rewrite (locals_are_no_arguments s Hme), bind_ret.
  cbn [fetch_frame_args]. rewrite bind_ret. cbn [fst snd].
  rewrite list_frame_args_passes by reflexivity.
  cbn [zeroed_arg entry_kind kind_eqb app]. rewrite app_nil_r.
  unfold request_events, request_name, record_fields, name_field.
  cbn [zeroed_arg entry_kind kind_eqb values_eqb what_eqb negb orb andb
       sym val error is_some app].
  rewrite append_empty. reflexivity.
Qed.

Lemma list_block_symbols_local_names (G : collaborators) (fi : frame_info)
    (b : list block) (syms : list symbol) :
  list_block_symbols G locals PRINT_NO_VALUES fi b syms
  = (map name_field (filter (print_me locals) syms), Returns tt).
Proof.
  induction syms as [|s rest IH]; cbn [list_block_symbols filter].
  - reflexivity.
  - rewrite list_symbol_local_name, IH.
    destruct (print_me locals s); reflexivity.
Qed.

Lemma list_blocks_local_names (G : collaborators) (fi : frame_info)
    (b : list block) :
  list_blocks G locals PRINT_NO_VALUES fi b
  = (map name_field
       (filter (print_me locals)
          (flat_map BLOCK_SYMBOLS (blocks_to_function b))),
     Returns tt).
Proof.
  induction b as [|blk superblock IH];
    cbn [list_blocks blocks_to_function flat_map].
  - reflexivity.
  - rewrite list_block_symbols_local_names.
    rewrite (bind_returns _ _ tt) by reflexivity. cbn [trace result fst snd].
    rewrite filter_app, map_app.
    destruct (BLOCK_FUNCTION blk).
    + reflexivity.
    + rewrite IH. reflexivity.
Qed.

(** X14: The inbuilt [-stack-list-locals] with names only never throws and never
    reads the frame: between the begin and the end of the "locals" list it
    writes one bare "name" field for each symbol of a candidate class that
    is no argument, in the order of the blocks from the innermost one up to
    and including the first block of a function.  Blocks around the function
    are not visited, and a frame without a block gives the empty list. *)
Theorem names_of_locals_stop_at_the_function_block (G : collaborators)
    (fi : frame_info) :
  list_args_or_locals G locals PRINT_NO_VALUES fi
  = (ui_out_list_begin "locals"
       :: map name_field
            (filter (print_me locals)
               (flat_map BLOCK_SYMBOLS
                  (blocks_to_function (get_frame_block fi))))
       ++ [ui_out_list_end],
     Returns tt)
  /\ (forall (inner : list block) (blk : block) (outer : list block),
        Forall (fun b => BLOCK_FUNCTION b = false) inner ->
        BLOCK_FUNCTION blk = true ->
        blocks_to_function (inner ++ blk :: outer) = inner ++ [blk])
  /\ (forall b : list block,
        Forall (fun blk => BLOCK_FUNCTION blk = false) b ->
        blocks_to_function b = b).
Proof.
  repeat split.
  - unfold list_args_or_locals, ui_out_list.
    rewrite list_blocks_local_names. reflexivity.
  - intros inner blk outer Hinner Hblk.
    induction Hinner as [|b inner Hb _ IH];
      cbn [app blocks_to_function].
    + rewrite Hblk. reflexivity.
    + rewrite Hb, IH. reflexivity.
  - intros b Hb. induction Hb as [|blk b Hblk _ IH];
      cbn [blocks_to_function]; [|rewrite Hblk, IH]; reflexivity.
Qed.

(** X15: When [lookup_symbol] does not find an argument that is to be listed, the
    listing throws the internal error of [gdb_assert (sym2 != NULL)]: what
    was listed before the symbol stays written, nothing is written for the
    symbol or after it, and the list is closed. *)
Theorem lost_argument_stops_the_listing (G : collaborators)
    (what : what_to_list) (values : print_values) (fi : frame_info)
    (blk : block) (sup : list block) (pre post : list symbol) (s : symbol) :
  print_me what s = true ->
  SYMBOL_IS_ARGUMENT s = true ->
  lookup_symbol G (SYMBOL_LINKAGE_NAME s) (blk :: sup) = None ->
  get_frame_block fi = blk :: sup ->
  BLOCK_SYMBOLS blk = pre ++ s :: post ->
  result (list_block_symbols G what values fi (blk :: sup) pre)
  = Returns tt ->
  list_args_or_locals G what values fi
  = (ui_out_list_begin (name_of_result what)
       :: trace (list_block_symbols G what values fi (blk :: sup) pre)
       ++ [ui_out_list_end],
     Throws (internal_error "sym2 != NULL")).
Proof.
  intros Hme Harg Hlookup Hblock Hsyms Hpre.
  assert (Hs : list_symbol G what values fi (blk :: sup) s
               = ([], Throws (internal_error "sym2 != NULL"))).
  { unfold list_symbol, canonical_symbol.
    rewrite Hme, Harg, Hlookup. reflexivity. }
  unfold list_args_or_locals, ui_out_list. rewrite Hblock.
  cbn [list_blocks]. rewrite Hsyms, list_block_symbols_app.
  cbn [list_block_symbols]. rewrite !bind_bind.
  rewrite (bind_returns _ _ tt) by exact Hpre.
  rewrite Hs. cbn [trace result fst snd bind]. rewrite app_nil_r.
  reflexivity.
Qed.

Lemma lost_argument_witness :
  list_args_or_locals gdb_without_lookup arguments PRINT_NO_VALUES
    Sample.frame_main
  = ([ui_out_list_begin "args"; ui_out_list_end],
     Throws (internal_error "sym2 != NULL")).
Proof.
  exact (lost_argument_stops_the_listing gdb_without_lookup arguments
           PRINT_NO_VALUES Sample.frame_main Sample.main_block
           [Sample.file_block] [] [] Sample.sym_argc
           eq_refl eq_refl eq_refl eq_refl eq_refl eq_refl).
Defined.

(** ** What a listing writes, by what its parts write *)

Section ByParts.

Context (P : event -> Prop) (G : collaborators) (what : what_to_list)
  (values : print_values).

Hypothesis P_request :
  forall arg, quiet P (list_arg_or_local G arg what values).
Hypothesis P_fetch :
  forall sym2 fi, quiet P (fetch_frame_args G values sym2 fi).
Hypothesis P_list_begin : P (ui_out_list_begin (name_of_result what)).
Hypothesis P_list_end : P ui_out_list_end.

Lemma list_symbol_by_parts (fi : frame_info) (b : list block) (s : symbol) :
  quiet P (list_symbol G what values fi b s).
Proof.
  unfold list_symbol. destruct (print_me what s); [|apply quiet_ret].
  apply quiet_bind.
  - unfold canonical_symbol. destruct (SYMBOL_IS_ARGUMENT s);
      [|apply quiet_ret].
    destruct (lookup_symbol G (SYMBOL_LINKAGE_NAME s) b);
      [apply quiet_ret | apply quiet_throw].
  - intros sym2. apply quiet_bind; [apply P_fetch|].
    intros args. unfold list_frame_args. apply quiet_bind.
    + destruct (negb (kind_eqb (entry_kind (fst args))
                        print_entry_values_only));
        [apply P_request | apply quiet_ret].
    + intros _.
      destruct (negb (kind_eqb (entry_kind (snd args))
                        print_entry_values_no));
        [apply P_request | apply quiet_ret].
Qed.

Lemma list_block_symbols_by_parts (fi : frame_info) (b : list block)
    (syms : list symbol) :
  quiet P (list_block_symbols G what values fi b syms).
Proof.
  induction syms as [|s rest IH]; cbn [list_block_symbols].
  - apply quiet_ret.
  - apply quiet_bind; [apply list_symbol_by_parts | intros; exact IH].
Qed.

Lemma list_blocks_by_parts (fi : frame_info) (b : list block) :
  quiet P (list_blocks G what values fi b).
Proof.
  induction b as [|blk superblock IH]; cbn [list_blocks].
  - apply quiet_ret.
  - apply quiet_bind; [apply list_block_symbols_by_parts | intros].
    destruct (BLOCK_FUNCTION blk); [apply quiet_ret | exact IH].
Qed.

Lemma list_args_or_locals_by_parts (fi : frame_info) :
  quiet P (list_args_or_locals G what values fi).
Proof.
  unfold list_args_or_locals.
  apply quiet_list; [exact P_list_begin | exact P_list_end |].
  apply list_blocks_by_parts.
Qed.

End ByParts.

Lemma list_frames_args_by_parts (P : event -> Prop) (G : collaborators)
    (values : print_values) (fi : list frame_info) (i frame_high : Z) :
  (forall f, quiet P (list_args_or_locals G arguments values f)) ->
  P (ui_out_tuple_begin (Some "frame"%string)) -> P ui_out_tuple_end ->
  (forall level, P (ui_out_field_int "level" level)) ->
  quiet P (list_frames_args G values fi i frame_high).
Proof.
  intros Hlist Hb He Hlevel. revert i.
  induction fi as [|f prev IH]; intros i; cbn [list_frames_args].
  - apply quiet_ret.
  - destruct ((i <=? frame_high) || (frame_high =? -1)); [|apply quiet_ret].
    apply quiet_bind; [|intros; apply IH].
    apply quiet_tuple; [exact Hb | exact He |].
    apply quiet_bind; [apply quiet_emit, Hlevel | intros; apply Hlist].
Qed.

Lemma dispatch_by_parts (P : event -> Prop) (G : collaborators)
    (frame_filters raw_arg : Z) (frame : list frame_info)
    (flags : list frame_filter_flag) (values : print_values) (low high : Z)
    (inbuilt : M unit) :
  P (apply_frame_filter_call frame flags values low high) ->
  P inbuilt_backtrace ->
  quiet P inbuilt ->
  quiet P
    (bind (consult_filters G frame_filters raw_arg frame flags values
             low high)
       (fun result =>
          if inbuilt_wanted frame_filters raw_arg result
          then bind (emit inbuilt_backtrace) (fun _ => inbuilt)
          else ret tt)).
Proof.
  intros Hcall Hmark Hin. apply quiet_bind.
  - unfold consult_filters, call_frame_filter.
    destruct (filters_wanted frame_filters raw_arg); [|apply quiet_ret].
    apply quiet_bind; [apply quiet_emit; exact Hcall | intros; apply quiet_ret].
  - intros r. destruct (inbuilt_wanted frame_filters raw_arg r);
      [|apply quiet_ret].
    apply quiet_bind; [apply quiet_emit; exact Hmark | intros; exact Hin].
Qed.

(** ** Names only *)

Lemma names_only_request (G : collaborators) (arg : frame_arg)
    (what : what_to_list) :
  quiet (fun e => carries_value e = false)
    (list_arg_or_local G arg what PRINT_NO_VALUES).
Proof.
  unfold quiet. destruct (frame_arg_asserts PRINT_NO_VALUES arg) eqn:H.
  - rewrite list_arg_or_local_passes by exact H. cbn [trace fst].
    unfold frame_arg_asserts, assert_values in H.
    cbn [values_eqb andb orb] in H.
    assert (Hnone : is_some (val arg) || is_some (error arg) = false).
    { destruct (is_some (val arg)), (is_some (error arg));
        rewrite ?andb_false_r, ?andb_true_r, ?orb_false_r in H;
        cbn in H; try discriminate H; try reflexivity;
        destruct (assert_val_xor_error arg); discriminate H. }
    unfold request_events, record, record_fields. rewrite Hnone.
    cbn [values_eqb].
    destruct (negb true || what_eqb what all);
      destruct (what_eqb what all && SYMBOL_IS_ARGUMENT (sym arg));
      repeat constructor.
  - destruct (list_arg_or_local_fails G arg what PRINT_NO_VALUES H)
      as [text ->].
    constructor.
Qed.

(** X16: Under [PRINT_NO_VALUES] nothing is read and nothing but names is
    written: the inbuilt listings of locals, arguments and variables, for
    one frame or for a window of frames, and the three commands around them
    make no call to [read_frame_arg] and write no "type" and no "value"
    field, whatever the frames hold and whether or not the listing
    returns. *)
Theorem no_values_reads_and_writes_no_value (G : collaborators)
    (what : what_to_list) (fi : frame_info)
    (frame_filters raw_arg : Z) (stack older : list frame_info)
    (low high : Z) :
  Forall (fun e => carries_value e = false)
    (trace (list_args_or_locals G what PRINT_NO_VALUES fi))
  /\ Forall (fun e => carries_value e = false)
       (trace (stack_list_args G frame_filters stack raw_arg PRINT_NO_VALUES
                 low high))
  /\ Forall (fun e => carries_value e = false)
       (trace (stack_list_locals G frame_filters fi older raw_arg
                 PRINT_NO_VALUES))
  /\ Forall (fun e => carries_value e = false)
       (trace (stack_list_variables G frame_filters fi older raw_arg
                 PRINT_NO_VALUES)).
Proof.
  assert (Hlist : forall what' f,
            quiet (fun e => carries_value e = false)
              (list_args_or_locals G what' PRINT_NO_VALUES f)).
  { intros what' f. apply list_args_or_locals_by_parts;
      try reflexivity.
    - intros arg. apply names_only_request.
    - intros sym2 f'. apply quiet_ret. }
  repeat split.
  - apply Hlist.
  - unfold stack_list_args.
    destruct (position_frame stack 0 low) as [[|f prev] i]; [constructor|].
    apply quiet_list; try reflexivity.
    apply dispatch_by_parts; try reflexivity.
    apply list_frames_args_by_parts; try reflexivity.
    intros f'. apply Hlist.
  - apply dispatch_by_parts; try reflexivity. apply Hlist.
  - apply dispatch_by_parts; try reflexivity. apply Hlist.
Qed.

(** ** The "arg" field *)

Lemma request_events_arg_field (G : collaborators) (arg : frame_arg)
    (what : what_to_list) (values : print_values) :
  existsb is_arg_field (request_events G arg what values)
  = what_eqb what all && SYMBOL_IS_ARGUMENT (sym arg).
Proof.
  unfold request_events, record, record_fields.
  destruct (negb (values_eqb values PRINT_NO_VALUES) || what_eqb what all);
    destruct (what_eqb what all && SYMBOL_IS_ARGUMENT (sym arg));
    destruct (values_eqb values PRINT_SIMPLE_VALUES);
    destruct (is_some (val arg) || is_some (error arg)); reflexivity.
Qed.

Lemma existsb_false_Forall {A} (p : A -> bool) (l : list A) :
  existsb p l = false -> Forall (fun a => p a = false) l.
Proof.
  induction l as [|a l IH]; cbn [existsb]; intros H; constructor.
  - destruct (p a); [discriminate H | reflexivity].
  - apply IH. destruct (p a); [discriminate H | exact H].
Qed.

(** X17: The field "arg" marks the arguments among the variables and nothing
    else: [list_arg_or_local] writes it exactly when the request passes the
    assertions, all variables are listed and the request's symbol is an
    argument, and the listings of locals and of arguments, for one frame or
    for a window of frames, never write it. *)
Theorem arg_field_marks_arguments_among_variables (G : collaborators)
    (what : what_to_list) (values : print_values) (fi : frame_info)
    (frames : list frame_info) (i high : Z) :
  what <> all ->
  (forall (arg : frame_arg) (what' : what_to_list),
      existsb is_arg_field (trace (list_arg_or_local G arg what' values))
      = frame_arg_asserts values arg
        && (what_eqb what' all && SYMBOL_IS_ARGUMENT (sym arg)))
  /\ Forall (fun e => is_arg_field e = false)
       (trace (list_args_or_locals G what values fi))
  /\ Forall (fun e => is_arg_field e = false)
       (trace (list_frames_args G values frames i high)).
Proof.
  intros Hwhat.
  assert (Hrequest : forall (arg : frame_arg) (what' : what_to_list),
            existsb is_arg_field
              (trace (list_arg_or_local G arg what' values))
            = frame_arg_asserts values arg
              && (what_eqb what' all && SYMBOL_IS_ARGUMENT (sym arg))).
  { intros arg what'. destruct (frame_arg_asserts values arg) eqn:H.
    - rewrite list_arg_or_local_passes by exact H. cbn [trace fst andb].
      apply request_events_arg_field.
    - destruct (list_arg_or_local_fails G arg what' values H) as [text ->].
      reflexivity. }
  assert (Hlist : forall what' f, what' <> all ->
            quiet (fun e => is_arg_field e = false)
              (list_args_or_locals G what' values f)).
  { intros what' f Hw. apply list_args_or_locals_by_parts;
      try reflexivity.
    - intros arg. unfold quiet. apply existsb_false_Forall.
      rewrite Hrequest.
      destruct what'; [| | contradiction]; apply andb_false_r.
    - intros sym2 f'. unfold fetch_frame_args.
      destruct values; try apply quiet_ret.
      + apply quiet_bind; [apply quiet_emit; reflexivity
                          | intros; apply quiet_ret].
      + destruct (not_aggregate (check_typedef G (SYMBOL_TYPE sym2)));
          [|apply quiet_ret].
        apply quiet_bind; [apply quiet_emit; reflexivity
                          | intros; apply quiet_ret]. }
  repeat split.
  - intros arg what'. apply Hrequest.
  - apply Hlist. exact Hwhat.
  - apply list_frames_args_by_parts; try reflexivity.
    intros f. apply Hlist. discriminate.
Qed.

Lemma arg_field_witness :
  Forall (fun e => is_arg_field e = false)
    (trace (list_args_or_locals Sample.gdb arguments PRINT_ALL_VALUES
              Sample.frame_f)).
Proof.
  refine (proj1 (proj2
    (arg_field_marks_arguments_among_variables Sample.gdb arguments
       PRINT_ALL_VALUES Sample.frame_f [] 0 0 _))).
  discriminate.
Defined.

(** ** Lists and tuples are closed *)

Lemma open_after_app (open : list bracket) (t u : list event) :
  open_after open (t ++ u)
  = match open_after open t with
    | Some open' => open_after open' u
    | None => None
    end.
Proof.
  revert open. induction t as [|e t IH]; intros open; cbn [app open_after].
  - reflexivity.
  - destruct e; try apply IH; destruct open as [|[|] open];
      try reflexivity; apply IH.
Qed.

Lemma balanced_ret {A} (a : A) : balanced (ret a).
Proof. intros open. reflexivity. Qed.

Lemma balanced_throw {A} (e : gdb_exception) : balanced (@throw A e).
Proof. intros open. reflexivity. Qed.

Lemma balanced_trace {A} (c : M A) :
  Forall (fun e => is_bracket e = false) (trace c) -> balanced c.
Proof.
  unfold balanced. induction 1 as [|e t He _ IH]; intros open.
  - reflexivity.
  - destruct e; try discriminate He; cbn [open_after]; apply IH.
Qed.

Lemma balanced_emit (e : event) : is_bracket e = false -> balanced (emit e).
Proof. intros H. apply balanced_trace. repeat constructor. exact H. Qed.

Lemma balanced_bind {A B} (c : M A) (k : A -> M B) :
  balanced c -> (forall a, balanced (k a)) -> balanced (bind c k).
Proof.
  unfold balanced. destruct c as [t [a|e]]; cbn [bind trace fst];
    intros Hc Hk open.
  - specialize (Hk a open). destruct (k a) as [t' r]. cbn [trace fst] in *.
    rewrite open_after_app, Hc. exact Hk.
  - apply Hc.
Qed.

Lemma balanced_list {A} (name : string) (body : M A) :
  balanced body -> balanced (ui_out_list name body).
Proof.
  intros H open. unfold ui_out_list. cbn [trace fst open_after].
  rewrite open_after_app, H. reflexivity.
Qed.

Lemma balanced_tuple {A} (name : option string) (body : M A) :
  balanced body -> balanced (ui_out_tuple name body).
Proof.
  intros H open. unfold ui_out_tuple. cbn [trace fst open_after].
  rewrite open_after_app, H. reflexivity.
Qed.

Lemma balanced_request (G : collaborators) (arg : frame_arg)
    (what : what_to_list) (values : print_values) :
  balanced (list_arg_or_local G arg what values).
Proof.
  assert (Hfields : balanced (list_arg_or_local_fields G arg what values)).
  { apply balanced_trace. rewrite list_arg_or_local_fields_eq.
    cbn [trace fst]. unfold record_fields.
    destruct (what_eqb what all && SYMBOL_IS_ARGUMENT (sym arg));
      destruct (values_eqb values PRINT_SIMPLE_VALUES);
      destruct (is_some (val arg) || is_some (error arg));
      repeat constructor. }
  unfold list_arg_or_local, gdb_assert.
  repeat (apply balanced_bind;
          [match goal with
           | |- balanced (if ?c then _ else _) =>
               destruct c; [apply balanced_ret | apply balanced_throw]
           end
          | intros _]).
  destruct (negb (values_eqb values PRINT_NO_VALUES) || what_eqb what all);
    [apply balanced_tuple|]; exact Hfields.
Qed.

Lemma balanced_symbol (G : collaborators) (what : what_to_list)
    (values : print_values) (fi : frame_info) (b : list block) (s : symbol) :
  balanced (list_symbol G what values fi b s).
Proof.
  unfold list_symbol. destruct (print_me what s); [|apply balanced_ret].
  apply balanced_bind.
  - unfold canonical_symbol. destruct (SYMBOL_IS_ARGUMENT s);
      [|apply balanced_ret].
    destruct (lookup_symbol G (SYMBOL_LINKAGE_NAME s) b);
      [apply balanced_ret | apply balanced_throw].
  - intros sym2. apply balanced_bind.
    + unfold fetch_frame_args.
      destruct values; try apply balanced_ret.
      * apply balanced_bind;
          [apply balanced_emit; reflexivity | intros; apply balanced_ret].
      * destruct (not_aggregate (check_typedef G (SYMBOL_TYPE sym2)));
          [|apply balanced_ret].
        apply balanced_bind;
          [apply balanced_emit; reflexivity | intros; apply balanced_ret].
    + intros args. unfold list_frame_args. apply balanced_bind.
      * destruct (negb (kind_eqb (entry_kind (fst args))
                          print_entry_values_only));
          [apply balanced_request | apply balanced_ret].
      * intros _.
        destruct (negb (kind_eqb (entry_kind (snd args))
                          print_entry_values_no));
          [apply balanced_request | apply balanced_ret].
Qed.

Lemma balanced_listing (G : collaborators) (what : what_to_list)
    (values : print_values) (fi : frame_info) :
  balanced (list_args_or_locals G what values fi).
Proof.
  assert (Hsyms : forall b syms,
            balanced (list_block_symbols G what values fi b syms)).
  { intros b syms. induction syms as [|s rest IHs];
      cbn [list_block_symbols];
      [apply balanced_ret
      | apply balanced_bind; [apply balanced_symbol | intros; exact IHs]]. }
  unfold list_args_or_locals. apply balanced_list.
  generalize (get_frame_block fi) as b. intros b.
  induction b as [|blk superblock IH]; cbn [list_blocks].
  - apply balanced_ret.
  - apply balanced_bind; [apply Hsyms | intros _].
    destruct (BLOCK_FUNCTION blk); [apply balanced_ret | exact IH].
Qed.

Lemma balanced_dispatch (G : collaborators) (frame_filters raw_arg : Z)
    (frame : list frame_info) (flags : list frame_filter_flag)
    (values : print_values) (low high : Z) (inbuilt : M unit) :
  balanced inbuilt ->
  balanced
    (bind (consult_filters G frame_filters raw_arg frame flags values
             low high)
       (fun result =>
          if inbuilt_wanted frame_filters raw_arg result
          then bind (emit inbuilt_backtrace) (fun _ => inbuilt)
          else ret tt)).
Proof.
  intros Hin. apply balanced_bind.
  - unfold consult_filters, call_frame_filter.
    destruct (filters_wanted frame_filters raw_arg); [|apply balanced_ret].
    apply balanced_bind;
      [apply balanced_emit; reflexivity | intros; apply balanced_ret].
  - intros r. destruct (inbuilt_wanted frame_filters raw_arg r);
      [|apply balanced_ret].
    apply balanced_bind;
      [apply balanced_emit; reflexivity | intros; exact Hin].
Qed.

(** X18: Every list and every tuple a command opens on the [ui_out] is closed
    again, in the right order, by the time the command returns or throws:
    this holds of the listing of one frame, which may stop at a failed
    assertion, and of the four listing commands around it. *)
Theorem lists_and_tuples_are_closed (G : collaborators)
    (what : what_to_list) (values : print_values) (fi : frame_info)
    (frame_filters raw_arg : Z) (stack older : list frame_info)
    (low high : Z) :
  balanced (list_args_or_locals G what values fi)
  /\ balanced (stack_list_frames G frame_filters stack raw_arg low high)
  /\ balanced (stack_list_args G frame_filters stack raw_arg values low high)
  /\ balanced (stack_list_locals G frame_filters fi older raw_arg values)
  /\ balanced (stack_list_variables G frame_filters fi older raw_arg values)
  /\ open_after [] (trace (stack_list_args G frame_filters stack raw_arg
                             values low high))
     = Some [].
Proof.
  assert (Hargs : balanced (stack_list_args G frame_filters stack raw_arg
                              values low high)).
  { unfold stack_list_args.
    destruct (position_frame stack 0 low) as [[|f prev] i];
      [apply balanced_throw|].
    apply balanced_list, balanced_dispatch.
    generalize (f :: prev) as frames. intros frames. revert i.
    induction frames as [|f' prev' IH]; intros i; cbn [list_frames_args].
    - apply balanced_ret.
    - destruct ((i <=? high) || (high =? -1)); [|apply balanced_ret].
      apply balanced_bind; [|intros; apply IH].
      apply balanced_tuple, balanced_bind;
        [apply balanced_emit; reflexivity
        | intros; apply balanced_listing]. }
  repeat split.
  - apply balanced_listing.
  - unfold stack_list_frames.
    destruct (position_frame stack 0 low) as [[|f prev] i];
      [apply balanced_throw|].
    apply balanced_list, balanced_dispatch.
    generalize (f :: prev) as frames. intros frames. revert i.
    induction frames as [|f' prev' IH]; intros i; cbn [print_frames].
    + apply balanced_ret.
    + destruct ((i <=? high) || (high =? -1)); [|apply balanced_ret].
      apply balanced_bind;
        [apply balanced_emit; reflexivity | intros; apply IH].
  - exact Hargs.
  - apply balanced_dispatch, balanced_listing.
  - apply balanced_dispatch, balanced_listing.
  - apply Hargs.
Qed.

(** ** [-enable-frame-filters] *)

(** X19: [-enable-frame-filters] takes no argument.  The value it gives
    [frame_filters] makes every listing command that is not given
    [--no-frame-filters] start with the call to the frame filters; given any
    argument it throws and sets nothing. *)
Theorem enable_frame_filters_turns_the_filters_on (G : collaborators)
    (argv : list string) (frame : frame_info) (older : list frame_info)
    (values : print_values) :
  match argv with
  | [] =>
      exists frame_filters,
        mi_cmd_enable_frame_filters argv = ([], Returns frame_filters)
        /\ (forall raw_arg,
              filters_wanted frame_filters raw_arg = negb (truth raw_arg))
        /\ hd_error (trace (stack_list_locals G frame_filters frame older 0
                              values))
           = Some (apply_frame_filter_call (frame :: older)
                     [PRINT_LEVEL; PRINT_LOCALS] values 0 0)
        /\ hd_error (trace (stack_list_variables G frame_filters frame older
                              0 values))
           = Some (apply_frame_filter_call (frame :: older)
                     [PRINT_LEVEL; PRINT_ARGS; PRINT_LOCALS] values 0 0)
  | _ :: _ =>
      mi_cmd_enable_frame_filters argv
      = ([], Throws (gdb_error "-enable-frame-filters: no arguments allowed"))
  end.
Proof.
  destruct argv as [|a rest].
  - exists 1. repeat split.
    + intros raw_arg. unfold filters_wanted. apply andb_true_r.
    + unfold stack_list_locals. rewrite dispatch_trace. reflexivity.
    + unfold stack_list_variables. rewrite dispatch_trace. reflexivity.
  - unfold mi_cmd_enable_frame_filters.
    destruct (Z.eqb_spec (Z.of_nat (List.length (a :: rest))) 0) as [H|_];
      [cbn [List.length] in H; lia | reflexivity].
Qed.

(** ** Simple values and all values *)

Lemma request_events_value (G : collaborators) (arg : frame_arg)
    (what : what_to_list) (values : print_values) :
  fields_named "value" (request_events G arg what values)
  = if is_some (val arg) || is_some (error arg)
    then [value_text G arg] else [].
Proof.
  unfold request_events, record, record_fields.
  destruct (negb (values_eqb values PRINT_NO_VALUES) || what_eqb what all);
    destruct (what_eqb what all && SYMBOL_IS_ARGUMENT (sym arg));
    destruct (values_eqb values PRINT_SIMPLE_VALUES);
    destruct (is_some (val arg) || is_some (error arg)); reflexivity.
Qed.

Lemma fetch_frame_args_fields (G : collaborators) (values : print_values)
    (sym2 : symbol) (fi : frame_info) (name : string) :
  fields_named name (trace (fetch_frame_args G values sym2 fi)) = [].
Proof.
  unfold fetch_frame_args.
  destruct values; try reflexivity.
  destruct (not_aggregate (check_typedef G (SYMBOL_TYPE sym2))); reflexivity.
Qed.

Lemma read_request_events (G : collaborators) (arg : frame_arg)
    (what : what_to_list) (values : print_values) :
  values <> PRINT_NO_VALUES ->
  frame_arg_asserts PRINT_ALL_VALUES arg = true ->
  frame_arg_asserts values arg = true
  /\ request_events G arg what values
     = record (request_name arg)
         (what_eqb what all && SYMBOL_IS_ARGUMENT (sym arg))
         (if values_eqb values PRINT_SIMPLE_VALUES
          then Some (type_print G (SYMBOL_TYPE (sym arg))) else None)
         (Some (value_text G arg)).
Proof.
  intros Hvalues Hall.
  destruct (read_request_passes values arg Hall) as [Hv Hsimple].
  split.
  - destruct values; [contradiction | exact Hall | exact Hsimple].
  - unfold request_events. rewrite Hv.
    destruct values; [contradiction | |]; reflexivity.
Qed.

Lemma list_symbol_of_read (G : collaborators) (what : what_to_list)
    (values : print_values) (fi : frame_info) (b : list block)
    (s sym2 : symbol) :
  print_me what s = true ->
  canonical_symbol G s b = ret sym2 ->
  values <> PRINT_NO_VALUES ->
  fetch_frame_args G values sym2 fi
  = ([read_frame_arg_call sym2 fi], Returns (read_frame_arg G sym2 fi)) ->
  well_read sym2 (read_frame_arg G sym2 fi) ->
  let arg := fst (read_frame_arg G sym2 fi) in
  let entryarg := snd (read_frame_arg G sym2 fi) in
  let name := SYMBOL_PRINT_NAME sym2 in
  let arg_flag := what_eqb what all && SYMBOL_IS_ARGUMENT sym2 in
  let type_text :=
    if values_eqb values PRINT_SIMPLE_VALUES
    then Some (type_print G (SYMBOL_TYPE sym2)) else None in
  list_symbol G what values fi b s
  = (read_frame_arg_call sym2 fi
       :: (if kind_eqb (entry_kind arg) print_entry_values_only then []
           else record name arg_flag type_text (Some (value_text G arg)))
       ++ (if kind_eqb (entry_kind entryarg) print_entry_values_no then []
           else record (String.append name "@entry") arg_flag type_text
                  (Some (value_text G entryarg))),
     Returns tt).
Proof.
  intros Hme Hsym Hvalues Hfetch (Hs1 & Hs2 & Ha & He)
    arg entryarg name arg_flag type_text.
  fold arg in Hs1, Ha. fold entryarg in Hs2, He.
  assert (Ha' : kind_eqb (entry_kind arg) print_entry_values_only
                || frame_arg_asserts values arg = true).
  { destruct (kind_eqb (entry_kind arg) print_entry_values_only);
      [reflexivity|].
    apply (read_request_events G arg what values Hvalues). exact Ha. }
  assert (He' : kind_eqb (entry_kind entryarg) print_entry_values_no
                || frame_arg_asserts values entryarg = true).
  { destruct (kind_eqb (entry_kind entryarg) print_entry_values_no);
      [reflexivity|].
    apply (read_request_events G entryarg what values Hvalues). exact He. }
  rewrite (list_symbol_passes G what values fi b s sym2 arg entryarg
             Hme Hsym); try assumption.
  2:{ rewrite Hfetch. unfold arg, entryarg. cbn [result snd].
      destruct (read_frame_arg G sym2 fi). reflexivity. }
  rewrite Hfetch. cbn [trace fst app]. f_equal. f_equal. f_equal.
  - destruct (kind_eqb (entry_kind arg) print_entry_values_only) eqn:K;
      [reflexivity|].
    cbn [orb] in Ha.
    rewrite (proj2 (read_request_events G arg what values Hvalues Ha)).
    rewrite (listed_normal_request_is_plain values) by exact K.
    rewrite Hs1. reflexivity.
  - destruct (kind_eqb (entry_kind entryarg) print_entry_values_no) eqn:K;
      [reflexivity|].
    cbn [orb] in He.
    destruct (read_request_events G entryarg what values Hvalues He)
      as [Hpass Hevents].
    rewrite Hevents.
    rewrite (listed_entry_request_is_suffixed values) by assumption.
    rewrite Hs2. reflexivity.
Qed.

(** X20: For a listed symbol whose type has none of the three aggregate codes,
    the case [PRINT_SIMPLE_VALUES] of the switch falls into the case
    [PRINT_ALL_VALUES]: either listing calls [read_frame_arg] once and then
    writes, for each request to list, a record with the name and the value
    or error of the request; the record of the simple listing has the type
    [type_print] renders between the two, and this is all the difference. *)
Theorem simple_values_of_a_scalar_are_all_values (G : collaborators)
    (what : what_to_list) (fi : frame_info) (b : list block)
    (s sym2 : symbol) (n : Z) :
  print_me what s = true ->
  canonical_symbol G s b = ret sym2 ->
  TYPE_CODE (check_typedef G (SYMBOL_TYPE sym2)) = TYPE_CODE_OTHER n ->
  well_read sym2 (read_frame_arg G sym2 fi) ->
  let arg := fst (read_frame_arg G sym2 fi) in
  let entryarg := snd (read_frame_arg G sym2 fi) in
  let name := SYMBOL_PRINT_NAME sym2 in
  let arg_flag := what_eqb what all && SYMBOL_IS_ARGUMENT sym2 in
  let listed (type_text : option string) :=
    (if kind_eqb (entry_kind arg) print_entry_values_only then []
     else record name arg_flag type_text (Some (value_text G arg)))
    ++ (if kind_eqb (entry_kind entryarg) print_entry_values_no then []
        else record (String.append name "@entry") arg_flag type_text
               (Some (value_text G entryarg))) in
  list_symbol G what PRINT_SIMPLE_VALUES fi b s
  = (read_frame_arg_call sym2 fi
       :: listed (Some (type_print G (SYMBOL_TYPE sym2))),
     Returns tt)
  /\ list_symbol G what PRINT_ALL_VALUES fi b s
     = (read_frame_arg_call sym2 fi :: listed None, Returns tt).
Proof.
  intros Hme Hsym Hcode Hread arg entryarg name arg_flag listed.
  split.
  - apply (list_symbol_of_read G what PRINT_SIMPLE_VALUES fi b s sym2);
      try assumption; try discriminate.
    unfold fetch_frame_args, not_aggregate. rewrite Hcode. reflexivity.
  - apply (list_symbol_of_read G what PRINT_ALL_VALUES fi b s sym2);
      try assumption; try discriminate.
    reflexivity.
Qed.

Lemma simple_and_all_values_witness :
  list_symbol Sample.gdb arguments PRINT_SIMPLE_VALUES Sample.frame_f
    [Sample.f_block; Sample.file_block] Sample.sym_y
  = (read_frame_arg_call Sample.sym_y Sample.frame_f
       :: record "y" false (Some "int"%string) (Some "7"%string)
       ++ record "y@entry" false (Some "int"%string) (Some "5"%string),
     Returns tt)
  /\ list_symbol Sample.gdb arguments PRINT_ALL_VALUES Sample.frame_f
       [Sample.f_block; Sample.file_block] Sample.sym_y
     = (read_frame_arg_call Sample.sym_y Sample.frame_f
          :: record "y" false None (Some "7"%string)
          ++ record "y@entry" false None (Some "5"%string),
        Returns tt).
Proof.
  refine (simple_values_of_a_scalar_are_all_values Sample.gdb arguments
            Sample.frame_f [Sample.f_block; Sample.file_block]
            Sample.sym_y Sample.sym_y 8 eq_refl eq_refl eq_refl _).
  repeat split.
Defined.
